(** * A model of [source/Logging.py] (TELERAG-MONOLITH asynchronous logging)

    The module is embedded in three parts:
    - [Severity]: the [LogLevel] enumeration and its lookup tables;
    - [LoggerRt]: one [Logger] with its [asyncio.Queue], its consumer task
      ([_process_queue]), its [stop] coroutine and the message stream of its
      [FileGateway], as a small-step interleaving of cooperative tasks;
    - [Registry]: the [LoggerComposer] singleton, the [ComposerMeta.__call__]
      get-or-create path and a heap of logger and gateway objects;
    - [Gateway]: the rotation configuration and check of [FileGateway].

    The event loop is assumed to be running when loggers are created
    ([asyncio.create_task] succeeds), as in [main.py]. *)

From Stdlib Require Import ZArith String Ascii.
From stdpp Require Import base list strings relations.



(* ------------------------------------------------------------------ *)
(** ** Severity model *)

Module Severity.

(** [class LogLevel(enum.Enum)] *)
Inductive LogLevel :=
| SIGSTOP | DEBUG | INFO | WARNING | ERROR | FATAL | EXCEPTION | QUIET | NOTSET.

#[global] Instance LogLevel_eq_dec : EqDecision LogLevel.
Proof. solve_decision. Defined.

(** [LogLevel.value] *)
Definition value (l : LogLevel) : Z :=
  match l with
  | SIGSTOP => -1 | DEBUG => 0 | INFO => 1 | WARNING => 2 | ERROR => 3
  | FATAL => 4 | EXCEPTION => 5 | QUIET => 6 | NOTSET => 7
  end%Z.

(** [loglevel_dict.get(s, LogLevel.NOTSET)] *)
Definition loglevel_dict_get (s : string) : LogLevel :=
  if String.eqb s "DEBUG" then DEBUG
  else if String.eqb s "INFO" then INFO
  else if String.eqb s "WARNING" then WARNING
  else if String.eqb s "ERROR" then ERROR
  else if String.eqb s "FATAL" then FATAL
  else if String.eqb s "EXCEPTION" then EXCEPTION
  else if String.eqb s "QUIET" then QUIET
  else if String.eqb s "NOTSET" then NOTSET
  else NOTSET.

(** [reversed_loglevel_dict.get(v, dflt)] *)
Definition reversed_loglevel_dict_get (v : Z) (dflt : string) : string :=
  match v with
  | 0%Z => "DEBUG" | 1%Z => "INFO" | 2%Z => "WARNING" | 3%Z => "ERROR"
  | 4%Z => "FATAL" | 5%Z => "EXCEPTION" | 6%Z => "QUIET" | 7%Z => "NOTSET"
  | _ => dflt
  end.

End Severity.

Import Severity.

(* ------------------------------------------------------------------ *)
(** ** One logger at run time *)

Module LoggerRt.

(** [asyncio.Queue]: the pending items and the counter [_unfinished_tasks]
    that [put] increments, [task_done] decrements and [join] waits on. *)
Record PyQueue (A : Type) := mkQueue {
  q_items : list A;
  q_unfinished : nat
}.
Arguments mkQueue {A}.
Arguments q_items {A}.
Arguments q_unfinished {A}.

Definition q_empty {A} : PyQueue A := mkQueue [] 0.

(** [Queue.put] on an unbounded queue ([put_nowait]). *)
Definition q_put {A} (x : A) (q : PyQueue A) : PyQueue A :=
  mkQueue (q_items q ++ [x]) (S (q_unfinished q)).

(** An item of [Logger._message_queue]: [None] or [(loglevel, message)]. *)
Definition Item := option (LogLevel * string).

(** Where the consumer task [_process_queue] is: at the [while self._logging]
    test, suspended in [await self._message_queue.get()], or finished. *)
Inductive ConsumerPC := CLoop | CGet | CDone.

#[global] Instance ConsumerPC_eq_dec : EqDecision ConsumerPC.
Proof. solve_decision. Defined.

(** The fields of a [Logger] object; [file_gateway] is the identity of the
    shared [FileGateway] object, if any. *)
Record Logger := mkLogger {
  name : string;
  level : LogLevel;
  message_queue : PyQueue Item;
  queue_processing_task : option ConsumerPC;
  logging : bool;
  file_gateway : option nat;
  file_location : string
}.

Definition set_level_field (l : Logger) (lv : LogLevel) : Logger :=
  mkLogger (name l) lv (message_queue l) (queue_processing_task l)
    (logging l) (file_gateway l) (file_location l).
Definition set_queue (l : Logger) (q : PyQueue Item) : Logger :=
  mkLogger (name l) (level l) q (queue_processing_task l)
    (logging l) (file_gateway l) (file_location l).
Definition set_task (l : Logger) (t : option ConsumerPC) : Logger :=
  mkLogger (name l) (level l) (message_queue l) t
    (logging l) (file_gateway l) (file_location l).
Definition set_logging (l : Logger) (b : bool) : Logger :=
  mkLogger (name l) (level l) (message_queue l) (queue_processing_task l)
    b (file_gateway l) (file_location l).
Definition set_file_gateway (l : Logger) (g : option nat) : Logger :=
  mkLogger (name l) (level l) (message_queue l) (queue_processing_task l)
    (logging l) g (file_location l).

(** [Logger.__init__(name, file)] *)
Definition init_logger (nm file : string) : Logger :=
  mkLogger nm NOTSET q_empty None true None file.

(** [Logger.set_level] *)
Definition set_level (l : Logger) (lv : LogLevel) : Logger :=
  if decide (level l <> NOTSET) then l else set_level_field l lv.

(** [Logger._create] *)
Definition _create (l : Logger) : Logger :=
  if bool_decide (is_Some (queue_processing_task l)) || negb (logging l) then l
  else set_logging (set_task l (Some CLoop)) true.

(** [Logger.log]: the queue is unbounded, so [await put] never suspends and
    the whole call runs without interruption. *)
Definition log (l : Logger) (loglevel : LogLevel) (message : string) : Logger :=
  let int_level := value loglevel in
  let int_self_level := value (level l) in
  if decide (level l = QUIET) then l
  else if decide (loglevel = SIGSTOP) then set_queue l (q_put None (message_queue l))
  else
    let l1 := if Z.geb int_level int_self_level
              then set_queue l (q_put (Some (loglevel, message)) (message_queue l))
              else l in
    match queue_processing_task l1 with
    | None => _create l1
    | Some _ => l1
    end.

(** [Logger._apply_decorations], with [timestamp] the formatted clock. *)
Definition _apply_decorations (timestamp nm : string) (lv : LogLevel) (message : string)
  : string :=
  "[" ++ timestamp ++ " - " ++ nm ++ "/"
      ++ reversed_loglevel_dict_get (value lv) "UNKNOWN" ++ "] -> " ++ message.

(** The state seen by the logger's tasks: the logger, the items of its
    gateway's [_message_stream] (shared with the gateway), the console lines
    written by [aprint], the clock read by [datetime.now()], and where the
    [stop()] coroutine is. *)
Inductive StopPC := SNotCalled | SJoining | SReturned.

Record World := mkWorld {
  w_logger : Logger;
  w_stream : list (option string);
  w_console : list string;
  w_clock : string;
  w_stop : StopPC
}.

Definition set_w_logger (w : World) (l : Logger) : World :=
  mkWorld l (w_stream w) (w_console w) (w_clock w) (w_stop w).

(** [self._file_gateway.enqueue(x)] under [if self._file_gateway:]. *)
Definition gw_enqueue (l : Logger) (x : option string) (s : list (option string))
  : list (option string) :=
  match file_gateway l with Some _ => s ++ [x] | None => s end.

(** One resumption of [_process_queue]. [None]: the task cannot run (it is
    suspended in [get] on an empty queue, finished, or not created). *)
Definition consumer_step (w : World) : option World :=
  let l := w_logger w in
  match queue_processing_task l with
  | Some CLoop =>
      Some (set_w_logger w (set_task l (Some (if logging l then CGet else CDone))))
  | Some CGet =>
      match q_items (message_queue l) with
      | [] => None
      | it :: rest =>
          let l' := set_queue l (mkQueue rest (q_unfinished (message_queue l))) in
          match it with
          | None =>
              Some (mkWorld (set_task l' (Some CDone)) (gw_enqueue l None (w_stream w))
                      (w_console w) (w_clock w) (w_stop w))
          | Some (lv, msg) =>
              let m := _apply_decorations (w_clock w) (name l) lv msg in
              Some (mkWorld (set_task l' (Some CLoop)) (gw_enqueue l (Some m) (w_stream w))
                      (w_console w ++ [m]) (w_clock w) (w_stop w))
          end
      end
  | _ => None
  end.

(** [Logger.stop] up to [await self._message_queue.join()]. *)
Definition stop_begin (l : Logger) : Logger := set_logging l false.

(** The rest of [Logger.stop]: [join] returns once [_unfinished_tasks] is 0;
    the consumer is cancelled and awaited and the handle reset. *)
Definition stop_finish (l : Logger) : option Logger :=
  match q_unfinished (message_queue l) with
  | O => Some (set_task l None)
  | S _ => None
  end.

(** The interleavings of producers calling [log], the consumer task, the
    [stop()] coroutine and the clock. *)
Inductive step : World -> World -> Prop :=
| StLog w lv m :
    step w (set_w_logger w (log (w_logger w) lv m))
| StConsumer w w' :
    consumer_step w = Some w' -> step w w'
| StStopCall w :
    w_stop w = SNotCalled ->
    step w (mkWorld (stop_begin (w_logger w)) (w_stream w) (w_console w) (w_clock w) SJoining)
| StStopJoin w l' :
    w_stop w = SJoining -> stop_finish (w_logger w) = Some l' ->
    step w (mkWorld l' (w_stream w) (w_console w) (w_clock w) SReturned)
| StTick w ts :
    step w (mkWorld (w_logger w) (w_stream w) (w_console w) ts (w_stop w)).

(** Running the consumer alone until it cannot proceed. *)
Fixpoint drain (fuel : nat) (w : World) : World :=
  match fuel with
  | O => w
  | S n => match consumer_step w with Some w' => drain n w' | None => w end
  end.

End LoggerRt.

(* ------------------------------------------------------------------ *)
(** ** File gateway: rotation configuration and check *)

Module Gateway.

(** [class RotType(enum.Enum)] *)
Inductive RotType := NONE | TIME | SIZE | TIME_SIZE.

#[global] Instance RotType_eq_dec : EqDecision RotType.
Proof. solve_decision. Defined.

(** The Python values [_rot_amt] can hold: [None], an [int], a pair of ints. *)
Inductive PyVal := PNone | PInt (z : Z) | PPair (a b : Z).

(** The fields of a [FileGateway] object. [processing_task] records whether
    [start()] created the writer task. *)
Record FileGateway := mkGateway {
  file_loc : string;
  start_stamp : Z;
  processing_task : bool;
  gw_logging : bool;
  rot_type : RotType;
  rot_amt : PyVal
}.

(** [FileGateway.__init__(file_loc)] with [int(datetime.now().timestamp())] = [now]. *)
Definition init_gateway (loc : string) (now : Z) : FileGateway :=
  mkGateway loc now false true NONE PNone.

(** [FileGateway.start] *)
Definition start (g : FileGateway) : FileGateway :=
  if processing_task g then g
  else mkGateway (file_loc g) (start_stamp g) true (gw_logging g) (rot_type g) (rot_amt g).

(** [a >= b] and [a > b] with [a] an int; comparing an int with [None] or a
    tuple raises [TypeError] ([None] here). *)
Definition py_ge (a : Z) (b : PyVal) : option bool :=
  match b with PInt n => Some (Z.geb a n) | _ => None end.
Definition py_gt (a : Z) (b : PyVal) : option bool :=
  match b with PInt n => Some (Z.gtb a n) | _ => None end.

(** [amt[i]]: indexing an int or [None] raises [TypeError]. *)
Definition py_index (v : PyVal) (i : nat) : option PyVal :=
  match v, i with
  | PPair a _, 0 => Some (PInt a)
  | PPair _ b, 1 => Some (PInt b)
  | _, _ => None
  end.

(** [FileGateway.rotate_if_needed(time_amt, size_amt)]; [None] is a raised
    [TypeError]. [or] and [and] short-circuit as in Python. *)
Definition rotate_if_needed (g : FileGateway) (time_amt size_amt : option Z)
  : option bool :=
  if decide (rot_type g = NONE) then Some false
  else
    (* if self._rot_type == RotType.SIZE *)
    match (if decide (rot_type g = SIZE) then
             match size_amt with
             | Some s => py_ge s (rot_amt g)
             | None => Some false
             end
           else Some false) with
    | None => None
    | Some true => Some true
    | Some false =>
    (* if self._rot_type == RotType.TIME *)
    match (if decide (rot_type g = TIME) then
             match time_amt with
             | Some t => py_gt (t - start_stamp g) (rot_amt g)
             | None => Some false
             end
           else Some false) with
    | None => None
    | Some true => Some true
    | Some false =>
    (* if self._rot_type == RotType.TIME_SIZE *)
    if decide (rot_type g = TIME_SIZE) then
      match time_amt, size_amt with
      | Some t, Some s =>
          match py_index (rot_amt g) 0 with
          | None => None
          | Some a0 =>
              match py_gt (t - start_stamp g) a0 with
              | None => None
              | Some true => Some true
              | Some false =>
                  match py_index (rot_amt g) 1 with
                  | None => None
                  | Some a1 => py_ge s a1
                  end
              end
          end
      | _, _ => Some false
      end
    else Some false
    end
    end.

(** Strings of the model are sequences of code points 0-255 (Latin-1), one
    [ascii] per code point. Whitespace as [str.split()], [str.strip()] and
    [int()] see it ([Py_UNICODE_ISSPACE]) within that range: tab, line feed,
    vertical tab, form feed, carriage return, the separators 28-31, space,
    NEL (0x85) and NO-BREAK SPACE (0xA0). *)
Definition is_space (c : ascii) : bool :=
  match nat_of_ascii c with
  | 9 | 10 | 11 | 12 | 13 | 28 | 29 | 30 | 31 | 32 | 133 | 160 => true
  | _ => false
  end.

(** [str.split()]: maximal runs of non-whitespace characters. *)
Fixpoint split_ws_aux (s : string) (cur : string) : list string :=
  match s with
  | EmptyString => if String.eqb cur "" then [] else [cur]
  | String c rest =>
      if is_space c
      then (if String.eqb cur "" then [] else [cur]) ++ split_ws_aux rest ""
      else split_ws_aux rest (cur ++ String c EmptyString)
  end.
Definition split_ws (s : string) : list string := split_ws_aux s "".

(** [str.split(sep)] for a one-character separator. *)
Fixpoint split_on_aux (sep : ascii) (s : string) (cur : string) : list string :=
  match s with
  | EmptyString => [cur]
  | String c rest =>
      if Ascii.eqb c sep then cur :: split_on_aux sep rest ""
      else split_on_aux sep rest (cur ++ String c EmptyString)
  end.
Definition split_on (sep : ascii) (s : string) : list string := split_on_aux sep s "".

(** [str.lower()] on Latin-1: the uppercase letters A-Z, 0xC0-0xD6 and
    0xD8-0xDE map to the code point 32 above; every other code point of the
    range is its own lowercase. *)
Definition lower_char (c : ascii) : ascii :=
  let n := nat_of_ascii c in
  if ((65 <=? n) && (n <=? 90)) || ((192 <=? n) && (n <=? 222) && negb (n =? 215))
  then ascii_of_nat (n + 32) else c.
Fixpoint lower (s : string) : string :=
  match s with
  | EmptyString => EmptyString
  | String c rest => String (lower_char c) (lower rest)
  end.

(** The body [int(s)] parses once surrounding whitespace is stripped
    ([PyLong_FromString], base 10): an optional sign, then decimal digits,
    single underscores allowed between digits; [None] is the [ValueError].
    Within Latin-1 the only Unicode decimal digits are 0-9. *)
Fixpoint digits_aux (s : string) (acc : Z) (prev_digit : bool) : option Z :=
  match s with
  | EmptyString => if prev_digit then Some acc else None
  | String c rest =>
      let n := nat_of_ascii c in
      if (48 <=? n) && (n <=? 57) then digits_aux rest (acc * 10 + Z.of_nat (n - 48)) true
      else if (n =? 95) && prev_digit then
        match rest with
        | String c' _ => let n' := nat_of_ascii c' in
                         if (48 <=? n') && (n' <=? 57) then digits_aux rest acc false else None
        | EmptyString => None
        end
      else None
  end.
Definition int_body (s : string) : option Z :=
  match s with
  | String "-" rest => option_map Z.opp (digits_aux rest 0 false)
  | String "+" rest => digits_aux rest 0 false
  | _ => digits_aux s 0 false
  end.

(** Leading whitespace removed. *)
Fixpoint lstrip_ws (l : list ascii) : list ascii :=
  match l with
  | [] => []
  | c :: r => if is_space c then lstrip_ws r else l
  end.

(** [s.strip()]. *)
Definition strip_ws (s : string) : string :=
  string_of_list_ascii (rev (lstrip_ws (rev (lstrip_ws (list_ascii_of_string s))))).

(** [int(s)] for a [str] argument. *)
Definition py_int (s : string) : option Z := int_body (strip_ws s).

(** [size_type_dict.get(k, 1)] and [time_type_dict.get(k, 1)] *)
Definition size_type_dict_get (k : string) : Z :=
  if String.eqb k "b" || String.eqb k "bytes" || String.eqb k "byte" then 1
  else if String.eqb k "kb" || String.eqb k "kilobytes" || String.eqb k "kilobyte" then 1024
  else if String.eqb k "mb" || String.eqb k "megabytes" || String.eqb k "megabyte" then 1024 * 1024
  else if String.eqb k "gb" || String.eqb k "gigabytes" || String.eqb k "gigabyte"
  then 1024 * 1024 * 1024
  else 1.
Definition time_type_dict_get (k : string) : Z :=
  if String.eqb k "s" || String.eqb k "seconds" || String.eqb k "second" then 1
  else if String.eqb k "m" || String.eqb k "minutes" || String.eqb k "minute" then 60
  else if String.eqb k "h" || String.eqb k "hours" || String.eqb k "hour" then 60 * 60
  else if String.eqb k "d" || String.eqb k "days" || String.eqb k "day" then 60 * 60 * 24
  else 1.

(** [FileGateway.convert_str_to_size] and [convert_str_to_timestamp]:
    unpacking [amt.split()] into two names raises unless there are exactly
    two words. *)
Definition convert_str_to_size (amt : string) : option Z :=
  match split_ws amt with
  | [a; t] => option_map (fun n => n * size_type_dict_get (lower t)) (py_int a)
  | _ => None
  end%Z.
Definition convert_str_to_timestamp (amt : string) : option Z :=
  match split_ws amt with
  | [a; t] => option_map (fun n => n * time_type_dict_get (lower t)) (py_int a)
  | _ => None
  end%Z.

Definition set_rot (g : FileGateway) (rt : RotType) (a : PyVal) : FileGateway :=
  mkGateway (file_loc g) (start_stamp g) (processing_task g) (gw_logging g) rt a.

(** [FileGateway.set_file_rotation]: the new gateway and whether an
    exception escaped; [_rot_type] is assigned before the amount is parsed. *)
Definition set_file_rotation (g : FileGateway) (rt : RotType) (amt : string)
  : FileGateway * bool :=
  if decide (rot_type g <> NONE) then (g, false)
  else
    let g1 := set_rot g rt (rot_amt g) in
    match rt with
    | SIZE => match convert_str_to_size amt with
              | Some n => (set_rot g1 rt (PInt n), false)
              | None => (g1, true)
              end
    | TIME => match convert_str_to_timestamp amt with
              | Some n => (set_rot g1 rt (PInt n), false)
              | None => (g1, true)
              end
    | TIME_SIZE =>
        match split_on "|" amt with
        | [ts; ss] =>
            match convert_str_to_timestamp ts with
            | None => (g1, true)
            | Some t => match convert_str_to_size ss with
                        | Some s => (set_rot g1 rt (PPair t s), false)
                        | None => (g1, true)
                        end
            end
        | _ => (g1, true)
        end
    | NONE => (g1, false)
    end.

(** The rotation policy as the specification states it: NONE never rotates,
    SIZE at a segment size of at least the threshold, TIME when the age of
    the segment exceeds the threshold, SIZE_AND_TIME when either does. *)
Definition policy_exceeded (g : FileGateway) (now size : Z) : bool :=
  match rot_type g, rot_amt g with
  | NONE, _ => false
  | SIZE, PInt n => Z.leb n size
  | TIME, PInt n => Z.ltb n (now - start_stamp g)
  | TIME_SIZE, PPair t s => Z.ltb t (now - start_stamp g) || Z.leb s size
  | _, _ => false
  end.

(** [_rot_amt] has the shape [set_file_rotation] gives it for [_rot_type]
    when no exception escaped. *)
Definition config_ok (g : FileGateway) : Prop :=
  match rot_type g, rot_amt g with
  | NONE, _ => True
  | SIZE, PInt _ | TIME, PInt _ | TIME_SIZE, PPair _ _ => True
  | _, _ => False
  end.

End Gateway.

(* ------------------------------------------------------------------ *)
(** ** The registry: [LoggerComposer], [ComposerMeta] and object heap *)

Module Registry.
Import LoggerRt Gateway.

(** A [LoggerComposer] object: [_loggers], a dict (insertion ordered)
    from logger name to [(logger, file_location, gateway)], the objects
    given by their heap addresses, and [level]. *)
Record Composer := mkComposer {
  loggers : list (string * (nat * string * nat));
  c_level : LogLevel
}.

(** The process state: [LoggerComposer._instance]; whether
    [ComposerMeta._instance] is set (when set, it is the same object as
    [LoggerComposer._instance], the two being assigned together and never
    reset); the heaps of [Logger] and [FileGateway] objects; the clock. *)
Record State := mkState {
  composer_instance : option Composer;
  meta_instance : bool;
  heap_loggers : list Logger;
  heap_gateways : list FileGateway;
  now : Z
}.

Definition init_state : State := mkState None false [] [] 0.

Definition put_composer (st : State) (c : Composer) : State :=
  mkState (Some c) (meta_instance st) (heap_loggers st) (heap_gateways st) (now st).
Definition set_heap_loggers (st : State) (h : list Logger) : State :=
  mkState (composer_instance st) (meta_instance st) h (heap_gateways st) (now st).
Definition set_heap_gateways (st : State) (h : list FileGateway) : State :=
  mkState (composer_instance st) (meta_instance st) (heap_loggers st) h (now st).

(** [d.get(k)] on an association list with unique keys. *)
Fixpoint dict_get {V} (k : string) (d : list (string * V)) : option V :=
  match d with
  | [] => None
  | (k', v) :: d' => if String.eqb k k' then Some v else dict_get k d'
  end.

(** [del d[k]] *)
Definition dict_del {V} (k : string) (d : list (string * V)) : list (string * V) :=
  filter (fun kv => negb (String.eqb k kv.1)) d.

(** [ComposerMeta._get_composer]: returns the registered composer, or
    creates one with [loglevel="DEBUG"] and registers it in both class
    attributes. *)
Definition _get_composer (st : State) : State * Composer :=
  match composer_instance st with
  | Some c => (st, c)
  | None =>
      let c := mkComposer [] (loglevel_dict_get "DEBUG") in
      (mkState (Some c) true (heap_loggers st) (heap_gateways st) (now st), c)
  end.

(** [LoggerComposer.get_gateway_if_exists] *)
Fixpoint get_gateway_if_exists (d : list (string * (nat * string * nat))) (file : string)
  : option nat :=
  match d with
  | [] => None
  | (_, (_, loc, gw)) :: d' =>
      if String.eqb loc file then Some gw else get_gateway_if_exists d' file
  end.

(** [LoggerComposer.add_logger]; [None] is the [ValueError] on a known name. *)
Definition add_logger (st : State) (c : Composer) (nm : string) (lid : nat)
  (file : string) (gid : nat) : option State :=
  match dict_get nm (loggers c) with
  | Some _ => None
  | None =>
      let hl := match heap_loggers st !! lid with
                | Some lo => <[lid := set_level_field lo (c_level c)]> (heap_loggers st)
                | None => heap_loggers st
                end in
      let hg := match heap_gateways st !! gid with
                | Some g => <[gid := start g]> (heap_gateways st)
                | None => heap_gateways st
                end in
      Some (mkState (Some (mkComposer (loggers c ++ [(nm, (lid, file, gid))]) (c_level c)))
              (meta_instance st) hl hg (now st))
  end.

(** [kwargs.get(k, dflt)] *)
Definition kw_get (kwargs : list (string * string)) (k dflt : string) : string :=
  match dict_get k kwargs with Some v => v | None => dflt end.

(** Binding [Logger.__init__(self, name="default", file="log.txt")] to the
    call's arguments; [None] is the [TypeError] for an unknown keyword, too
    many positional arguments or an argument given twice. *)
Definition bind_init (args : list string) (kwargs : list (string * string))
  : option (string * string) :=
  let known := fun kv : string * string =>
                 String.eqb kv.1 "name" || String.eqb kv.1 "file" in
  let has := fun k => bool_decide (is_Some (dict_get k kwargs)) in
  if forallb known kwargs then
    match args with
    | [] => Some (kw_get kwargs "name" "default", kw_get kwargs "file" "log.txt")
    | [a] => if has "name" then None else Some (a, kw_get kwargs "file" "log.txt")
    | [a; b] => if has "name" || has "file" then None else Some (a, b)
    | _ => None
    end
  else None.

(** [ComposerMeta.__call__(cls, *args, **kwargs)]: the state afterwards and
    the address of the returned logger, [None] when an exception escapes. *)
Definition get_or_create (args : list string) (kwargs : list (string * string))
  (st : State) : State * option nat :=
  let '(st1, c) := _get_composer st in
  let logger_name := kw_get kwargs "name" "default" in
  let logfile_location := ("./logs/" ++ kw_get kwargs "file" "log.txt")%string in
  match dict_get logger_name (loggers c) with
  | Some (lid, _, _) => (st1, Some lid)
  | None =>
      let '(st2, gid) :=
        match get_gateway_if_exists (loggers c) logfile_location with
        | Some g => (st1, g)
        | None => (set_heap_gateways st1
                     (heap_gateways st1 ++ [init_gateway logfile_location (now st1)]),
                   length (heap_gateways st1))
        end in
      match bind_init args kwargs with
      | None => (st2, None)
      | Some (nm, file) =>
          let lid := length (heap_loggers st2) in
          let lo := set_file_gateway (init_logger nm file) (Some gid) in
          let st3 := set_heap_loggers st2 (heap_loggers st2 ++ [lo]) in
          match add_logger st3 c logger_name lid logfile_location gid with
          | Some st4 => (st4, Some lid)
          | None => (st3, None)
          end
      end
  end.

(** [logger.set_level(lv)] on the logger at address [lid]. *)
Definition heap_set_level (st : State) (lid : nat) (lv : LogLevel) : State :=
  match heap_loggers st !! lid with
  | Some lo => set_heap_loggers st (<[lid := set_level lo lv]> (heap_loggers st))
  | None => st
  end.

(** The synchronous effect of [await logger.log(lv, m)] on the logger object. *)
Definition heap_log (st : State) (lid : nat) (lv : LogLevel) (m : string) : State :=
  match heap_loggers st !! lid with
  | Some lo => set_heap_loggers st (<[lid := log lo lv m]> (heap_loggers st))
  | None => st
  end.

(** [LoggerComposer.remove_logger]; [None] is the [ValueError]. *)
Definition remove_logger (st : State) (nm : string) : option State :=
  match composer_instance st with
  | Some c =>
      match dict_get nm (loggers c) with
      | Some _ => Some (put_composer st (mkComposer (dict_del nm (loggers c)) (c_level c)))
      | None => None
      end
  | None => None
  end.

(** The coroutine objects [stop_everything] creates: [Logger.stop] and
    [FileGateway.stop] are [async def] methods, so [logger[0].stop()] and
    [logger[2].stop()], called without [await], only build a coroutine
    object for the logger, resp. gateway, at that heap address. The object
    is discarded unawaited: its body never runs. *)
Inductive StopCoro := LoggerStopCoro (lid : nat) | GatewayStopCoro (gid : nat).

#[global] Instance StopCoro_eq_dec : EqDecision StopCoro.
Proof. solve_decision. Defined.

(** [LoggerComposer.stop_everything], a plain method: per entry it creates
    the coroutines [logger[0].stop()] and [logger[2].stop()] and drops them,
    then does [self._loggers = {}]. No logger or gateway object is touched;
    the result pairs the coroutines created, in order, with the composer. *)
Definition stop_everything (c : Composer) : list StopCoro * Composer :=
  (flat_map (fun e : string * (nat * string * nat) =>
               let '(_, (lid, _, gid)) := e in [LoggerStopCoro lid; GatewayStopCoro gid])
            (loggers c),
   mkComposer [] (c_level c)).

(** [ComposerMeta._stop_all_sig] (and [stop_logging]). *)
Definition _stop_all_sig (st : State) : State * list StopCoro :=
  let '(st1, c) := _get_composer st in
  let '(calls, c') := stop_everything c in
  (put_composer st1 c', calls).

(** [LoggerComposer.set_instance(LoggerComposer(loglevel))]; [None] is the
    [RuntimeError] when an instance is already set. *)
Definition set_instance (st : State) (loglevel : string) : option State :=
  match composer_instance st with
  | Some _ => None
  | None => Some (put_composer st (mkComposer [] (loglevel_dict_get loglevel)))
  end.

(** [LoggerComposer.set_level_if_not_set] on the registered composer. *)
Definition set_level_if_not_set (st : State) : State :=
  match composer_instance st with
  | Some c => fold_left (fun st' (e : string * (nat * string * nat)) =>
                           let '(_, (lid, _, _)) := e in heap_set_level st' lid (c_level c))
                        (loggers c) st
  | None => st
  end.

(** The operations a program performs on the subsystem; an operation whose
    exception escapes leaves the state its partial effects left. *)
Inductive Op :=
| OGetOrCreate (args : list string) (kwargs : list (string * string))
| OSetLevel (lid : nat) (lv : LogLevel)
| OLog (lid : nat) (lv : LogLevel) (m : string)
| ORemove (nm : string)
| OStopAll
| OSetInstance (loglevel : string)
| OSetLevelIfNotSet
| OTick (t : Z).

Definition exec_op (o : Op) (st : State) : State :=
  match o with
  | OGetOrCreate args kwargs => (get_or_create args kwargs st).1
  | OSetLevel lid lv => heap_set_level st lid lv
  | OLog lid lv m => heap_log st lid lv m
  | ORemove nm => default st (remove_logger st nm)
  | OStopAll => (_stop_all_sig st).1
  | OSetInstance s => default st (set_instance st s)
  | OSetLevelIfNotSet => set_level_if_not_set st
  | OTick t => mkState (composer_instance st) (meta_instance st) (heap_loggers st)
                 (heap_gateways st) t
  end.

Definition exec_ops (os : list Op) (st : State) : State :=
  fold_left (fun st o => exec_op o st) os st.

End Registry.

(* ------------------------------------------------------------------ *)
(** ** Specification-side predicates and concrete scenarios *)

Module Scenarios.
Import LoggerRt.

(** Acceptance as the specification states it: rank of the severity at
    least the rank of the threshold, and the threshold is not QUIET. *)
Definition spec_accepts (threshold severity : LogLevel) : bool :=
  bool_decide (threshold <> QUIET) && Z.leb (value threshold) (value severity).

(** The line the consumer forwards for a [(level, message)] item. *)
Definition forwarded (w : World) (p : LogLevel * string) : option string :=
  Some (_apply_decorations (w_clock w) (name (w_logger w)) p.1 p.2).

(** A logger as [ComposerMeta.__call__] leaves it under the auto-created
    composer: threshold DEBUG, gateway 0, no consumer task yet. *)
Definition registered_logger : Logger :=
  mkLogger "X" DEBUG q_empty None true (Some 0) "log.txt".

Definition world0 : World :=
  mkWorld registered_logger [] [] "10-16_12:00:00" SNotCalled.

(** [await x.info("a")] has run; [stop()] has not been called yet. *)
Definition world_one_message : World :=
  set_w_logger world0 (log registered_logger INFO "a").

End Scenarios.

Module Invariants.
Import LoggerRt Registry.

(** Every registered entry names an allocated gateway and an allocated
    logger whose [_file_gateway] is that gateway, and two entries with the
    same destination path name the same gateway. *)
Definition gateways_shared (st : State) : Prop :=
  forall c, composer_instance st = Some c ->
  (forall n lid p gid, (n, (lid, p, gid)) ∈ loggers c ->
     gid < length (heap_gateways st)
     /\ exists lo, heap_loggers st !! lid = Some lo /\ file_gateway lo = Some gid)
  /\ (forall n1 l1 g1 n2 l2 g2 p,
        (n1, (l1, p, g1)) ∈ loggers c -> (n2, (l2, p, g2)) ∈ loggers c -> g1 = g2).

(** Before any composer exists there is no logger; once [ComposerMeta]
    has created the composer, its level is DEBUG and so is every logger's. *)
Definition auto_debug (st : State) : Prop :=
  (composer_instance st = None -> heap_loggers st = [] /\ meta_instance st = false)
  /\ (meta_instance st = true ->
      exists c, composer_instance st = Some c /\ c_level c = DEBUG
                /\ Forall (fun lo => level lo = DEBUG) (heap_loggers st)).

(** The heaps only grow and keep each logger's [_file_gateway]. *)
Definition heap_grows (st st' : State) : Prop :=
  length (heap_gateways st) <= length (heap_gateways st')
  /\ forall lid lo, heap_loggers st !! lid = Some lo ->
       exists lo', heap_loggers st' !! lid = Some lo' /\ file_gateway lo' = file_gateway lo.

(** Updating the logger at [lid] with [f], as [heap_set_level] and
    [heap_log] do. *)
Definition heap_update (st : State) (lid : nat) (f : Logger -> Logger) : State :=
  match heap_loggers st !! lid with
  | Some lo => set_heap_loggers st (<[lid := f lo]> (heap_loggers st))
  | None => st
  end.

(** Every registered entry's gateway is on the heap and [start()] has
    created its writer task. *)
Definition gateways_started (st : State) : Prop :=
  forall c, composer_instance st = Some c ->
  forall n lid p gid, (n, (lid, p, gid)) ∈ loggers c ->
  exists g, heap_gateways st !! gid = Some g /\ Gateway.processing_task g = true.

(** Every registered entry's logger is on the heap, and its level is
    NOTSET only when the composer's level is NOTSET. *)
Definition levels_assigned (st : State) : Prop :=
  forall c, composer_instance st = Some c ->
  forall n lid p gid, (n, (lid, p, gid)) ∈ loggers c ->
  exists lo, heap_loggers st !! lid = Some lo /\ (level lo = NOTSET -> c_level c = NOTSET).

End Invariants.

(* ------------------------------------------------------------------ *)
(** ** File gateway: segment files, the writer task and rotation *)

Module GatewayIO.
Import Gateway.

(** [str(n)] for an int, as f-strings format it: decimal digits without
    leading zeros, a leading [-] for a negative value. [dstr] peels the last
    digit off; [str_nonneg] gives it as many rounds as [n] has bits, which
    is at least its number of decimal digits. *)
Definition digit_char (d : Z) : ascii := ascii_of_nat (48 + Z.to_nat d).

Fixpoint dstr (fuel : nat) (n : Z) : string :=
  match fuel with
  | O => EmptyString
  | S f =>
      if Z.ltb n 10 then String (digit_char n) EmptyString
      else (dstr f (n / 10) ++ String (digit_char (n mod 10)) EmptyString)%string
  end.

Definition str_nonneg (n : Z) : string := dstr (S (Z.to_nat (Z.log2 n))) n.

Definition py_str_int (z : Z) : string :=
  if Z.ltb z 0 then String "-" (str_nonneg (- z)) else str_nonneg z.

(** [str.rfind(c)]: the index of the last occurrence of [c], or -1. *)
Fixpoint rfind_aux (c : ascii) (s : string) (i best : Z) : Z :=
  match s with
  | EmptyString => best
  | String d rest => rfind_aux c rest (i + 1) (if Ascii.eqb d c then i else best)
  end.
Definition rfind (c : ascii) (s : string) : Z := rfind_aux c s 0 (-1).

(** The [while filenameIndex < dotIndex] loop of [genericpath._splitext]:
    whether a character other than [.] occurs at an index in
    [filenameIndex, filenameIndex + fuel). *)
Fixpoint non_dot_before (p : string) (filenameIndex : nat) (fuel : nat) : bool :=
  match fuel with
  | O => false
  | S f =>
      if negb (Ascii.eqb (default "."%char (String.get filenameIndex p)) ".")
      then true
      else non_dot_before p (S filenameIndex) f
  end.

(** [os.path.splitext(p)] on POSIX ([genericpath._splitext(p, "/", None, ".")]). *)
Definition splitext (p : string) : string * string :=
  let sepIndex := rfind "/" p in
  let dotIndex := rfind "." p in
  if Z.ltb sepIndex dotIndex then
    let filenameIndex := Z.to_nat (sepIndex + 1) in
    if non_dot_before p filenameIndex (Z.to_nat dotIndex - filenameIndex)
    then (substring 0 (Z.to_nat dotIndex) p,
          substring (Z.to_nat dotIndex) (String.length p - Z.to_nat dotIndex) p)
    else (p, EmptyString)
  else (p, EmptyString).

(** [log_file_path] in [FileGateway._stream_process]:
    [f"{os.path.splitext(self.file_loc)[0]}_{self._start_stamp}.log"]. *)
Definition log_file_path (g : FileGateway) : string :=
  ((splitext (file_loc g)).1 ++ "_" ++ py_str_int (start_stamp g) ++ ".log")%string.

Definition nl : string := String (ascii_of_nat 10) EmptyString.

Fixpoint str_repeat (s : string) (n : nat) : string :=
  match n with O => EmptyString | S k => (s ++ str_repeat s k)%string end.

(** [FileGateway.boilerplate_message()] with [timestamp] the clock read. *)
Definition boilerplate_message (timestamp : Z) : string :=
  ("--- Logging Session Start ---" ++ nl
   ++ "Timestamp: " ++ py_str_int timestamp ++ nl
   ++ "Project: TELERAG-MONOLITH" ++ nl
   ++ "Version: 1.0" ++ nl)%string.

(** What [_stream_process] writes first:
    [self.boilerplate_message() + "\n" + "-" * 20 + "\n"]. *)
Definition session_header (timestamp : Z) : string :=
  (boilerplate_message timestamp ++ nl ++ str_repeat "-" 20 ++ nl)%string.

(** How a run of the writer loop of [_stream_process] ends: suspended in
    [get()] on an empty stream, at the [None] sentinel, at
    [should_rotate = True], or at the [while self._logging] test. *)
Inductive WriterEnd := WSuspended | WSentinel | WRotate | WStopped.

(** The segment file's content (its bytes, the file being opened in append
    mode), what is left of [_message_stream], and how many lines the loop's
    [except Exception] handler printed with [aprint_err]. *)
Record WriterRun := mkRun {
  wr_file : string;
  wr_stream : list (option string);
  wr_errors : nat;
  wr_end : WriterEnd
}.

(** The [while self._logging] loop of [_stream_process], run by the writer
    task alone; [clk k] is [int(datetime.now().timestamp())] at the [k]-th
    read, and [os.path.getsize(log_file_path)] is the length of the file.
    A [TypeError] of [rotate_if_needed] is caught by [except Exception]. *)
Fixpoint writer_loop (g : FileGateway) (clk : nat -> Z) (k : nat) (file : string)
  (stream : list (option string)) (errs : nat) : WriterRun :=
  if negb (gw_logging g) then mkRun file stream errs WStopped
  else
    match stream with
    | [] => mkRun file [] errs WSuspended
    | None :: rest => mkRun file rest errs WSentinel
    | Some msg :: rest =>
        let file' := (file ++ msg ++ nl)%string in
        match rotate_if_needed g (Some (clk k)) (Some (Z.of_nat (String.length file'))) with
        | Some true => mkRun file' rest errs WRotate
        | Some false => writer_loop g clk (S k) file' rest errs
        | None => writer_loop g clk (S k) file' rest (S errs)
        end
    end.

(** [FileGateway._stream_process] on a segment file holding [existing]:
    the session header (stamped with the clock's first read), then the loop. *)
Definition _stream_process (g : FileGateway) (clk : nat -> Z) (existing : string)
  (stream : list (option string)) : WriterRun :=
  writer_loop g clk 1 (existing ++ session_header (clk O)) stream 0.

(** The writer tasks of one gateway: the task [_processing_task] refers to,
    the [_stream_process] tasks still running, and the next task id. *)
Record GwTasks := mkTasks {
  handle : option nat;
  live : list nat;
  next_task : nat
}.

(** [FileGateway.start]: a task is created only when there is none. *)
Definition start_tasks (ts : GwTasks) : GwTasks :=
  match handle ts with
  | Some _ => ts
  | None => mkTasks (Some (next_task ts)) (live ts ++ [next_task ts]) (S (next_task ts))
  end.

(** [FileGateway._rotate_file], awaited by the writer task [me] as the last
    statement of its [_stream_process]. The task [_processing_task] refers
    to is cancelled and awaited: it ends (it catches [CancelledError] and
    leaves its loop; when it is [me] itself, the [await] raises
    [CancelledError] into [me], which [_rotate_file] catches). Then
    [create_task] runs twice (in the [try] and after it) and the handle keeps
    the second task; [me] ends when [_rotate_file] returns. [None]: the
    handle is [None] and [.cancel()] raises [AttributeError]. *)
Definition _rotate_file (me : nat) (ts : GwTasks) : option GwTasks :=
  match handle ts with
  | None => None
  | Some t =>
      let n := next_task ts in
      Some (mkTasks (Some (S n))
              (filter (fun x => x <> t /\ x <> me) (live ts) ++ [n; S n])
              (S (S n)))
  end.

(** The start stamp [_rotate_file] sets: [int(datetime.now().timestamp())]. *)
Definition restamp (g : FileGateway) (now : Z) : FileGateway :=
  mkGateway (file_loc g) now (processing_task g) (gw_logging g) (rot_type g) (rot_amt g).

End GatewayIO.

(* ------------------------------------------------------------------ *)
(** ** Registry queries *)

Module RegistryQuery.
Import LoggerRt Registry.

(** [name in composer] ([LoggerComposer.__contains__]). *)
Definition composer_contains (c : Composer) (nm : string) : bool :=
  bool_decide (is_Some (dict_get nm (loggers c))).

(** [LoggerComposer.get_logger(name)]: the logger's address; [None] is the
    [ValueError]. *)
Definition get_logger (c : Composer) (nm : string) : option nat :=
  match dict_get nm (loggers c) with
  | Some (lid, _, _) => Some lid
  | None => None
  end.

End RegistryQuery.

(* ------------------------------------------------------------------ *)
(** * Theorems *)

Module LoggerFacts.
Import LoggerRt Scenarios.

(** [lia] on queue counters, whose implicit item type may be written as
    [Item] or unfolded. *)
Ltac qlia := unfold Item in *; simpl in *; lia.

Lemma log_unfinished_mono (l : Logger) (lv : LogLevel) (m : string) :
  q_unfinished (message_queue l) <= q_unfinished (message_queue (log l lv m)).
Proof.
  unfold log, _create; cbv zeta.
  destruct (decide (level l = QUIET)); [qlia|].
  destruct (decide (lv = SIGSTOP)); [simpl; qlia|].
  destruct (Z.geb _ _); simpl;
    repeat match goal with
           | |- context [match ?x with _ => _ end] => destruct x
           | |- context [if ?b then _ else _] => destruct b
           end; simpl; qlia.
Qed.

Lemma consumer_step_unfinished (w w' : World) :
  consumer_step w = Some w' ->
  q_unfinished (message_queue (w_logger w')) = q_unfinished (message_queue (w_logger w)).
Proof.
  unfold consumer_step.
  destruct (queue_processing_task (w_logger w)) as [[| |]|]; try discriminate.
  - intros [= <-]. reflexivity.
  - destruct (q_items (message_queue (w_logger w))) as [|[[lv m]|] rest]; try discriminate;
      intros [= <-]; reflexivity.
Qed.

(** Nothing ever decrements [_unfinished_tasks]: [_process_queue] never
    calls [task_done]. *)
Lemma step_unfinished_mono (w w' : World) :
  step w w' ->
  q_unfinished (message_queue (w_logger w)) <= q_unfinished (message_queue (w_logger w')).
Proof.
  destruct 1 as [w lv m|w w' Hc|w _|w l' _ Hf|w ts]; simpl.
  - apply log_unfinished_mono.
  - rewrite (consumer_step_unfinished _ _ Hc). qlia.
  - qlia.
  - unfold stop_finish in Hf.
    destruct (q_unfinished _) eqn:E; inversion Hf; subst; simpl; qlia.
  - qlia.
Qed.

Lemma stop_blocked_forever (w w' : World) :
  rtc step w w' ->
  1 <= q_unfinished (message_queue (w_logger w)) ->
  w_stop w <> SReturned ->
  w_stop w' <> SReturned.
Proof.
  induction 1 as [w|w1 w2 w3 Hs _ IH]; [tauto|].
  intros Hu Hr. apply IH.
  - pose proof (step_unfinished_mono _ _ Hs). qlia.
  - destruct Hs as [w lv m|w w' Hc|w _|w l' _ Hf|w ts]; simpl; try congruence.
    + unfold consumer_step in Hc.
      destruct (queue_processing_task (w_logger w)) as [[| |]|]; try discriminate.
      * injection Hc as <-. exact Hr.
      * destruct (q_items (message_queue (w_logger w))) as [|[[lv m]|] rest];
          try discriminate; injection Hc as <-; exact Hr.
    + unfold stop_finish in Hf. destruct (q_unfinished _); [qlia|discriminate].
Qed.

(** C1 (evaluated at the failing input). [stop()] clears the running flag
    but puts nothing into the logger's queue (no STOP sentinel), and once
    one message has been queued ([info("a")] on a fresh registered logger)
    no interleaving of producers, consumer and clock ever lets [stop()]
    return: [join()] waits for [_unfinished_tasks] to reach 0 and nothing
    decrements it. *)
Theorem stop_never_returns_after_a_message :
  (forall l : Logger,
      q_items (message_queue (stop_begin l)) = q_items (message_queue l)
      /\ logging (stop_begin l) = false)
  /\ (forall w : World, rtc step world_one_message w -> w_stop w <> SReturned).
Proof.
  split.
  - intros l. split; reflexivity.
  - intros w Hw. apply (stop_blocked_forever _ _ Hw); simpl; [qlia|discriminate].
Qed.

Lemma drain_from_get (nm : string) (lvl : LogLevel) (u g : nat) (fl ts : string)
  (sp : StopPC) (ps : list (LogLevel * string)) :
  forall (s : list (option string)) (con : list string) (n : nat),
  w_stream (drain (2 * length ps + n)
     (mkWorld (mkLogger nm lvl (mkQueue (map Some ps) u) (Some CGet) true (Some g) fl)
              s con ts sp))
  = s ++ map (fun p => Some (_apply_decorations ts nm p.1 p.2)) ps.
Proof.
  induction ps as [|[lv m] ps IH]; intros s con n.
  - rewrite app_nil_r. destruct n; reflexivity.
  - replace (2 * length ((lv, m) :: ps) + n) with (S (S (2 * length ps + n)))
      by (simpl; lia).
    remember (2 * length ps + n) as k eqn:Hk.
    simpl. subst k. cbv [set_w_logger set_task set_queue gw_enqueue]; simpl.
    rewrite IH, <- app_assoc. reflexivity.
Qed.

Lemma drain_running (nm : string) (lvl : LogLevel) (u g : nat) (fl ts : string)
  (sp : StopPC) (qs : list (LogLevel * string)) (pc : ConsumerPC)
  (s : list (option string)) (con : list string) (n : nat) :
  pc = CLoop \/ pc = CGet ->
  w_stream (drain (S (2 * length qs + n))
     (mkWorld (mkLogger nm lvl (mkQueue (map Some qs) u) (Some pc) true (Some g) fl)
              s con ts sp))
  = s ++ map (fun p => Some (_apply_decorations ts nm p.1 p.2)) qs.
Proof.
  intros [-> | ->].
  - apply drain_from_get.
  - replace (S (2 * length qs + n)) with (2 * length qs + S n) by lia.
    apply drain_from_get.
Qed.

Lemma drain_idle (w : World) (n : nat) :
  consumer_step w = None -> drain n w = w.
Proof. intros H. destruct n; simpl; [reflexivity|]. rewrite H. reflexivity. Qed.

(** C2. For a running logger (flag set, its gateway attached, no STOP
    sentinel pending, consumer task not finished and, if not yet created,
    nothing queued), [log(lv, m)] with [lv] not SIGSTOP followed by the
    consumer running until it blocks forwards to the gateway exactly the
    decorated earlier items and then the decorated new message when
    [rank(lv) >= rank(threshold)] and the threshold is not QUIET, and
    nothing for it otherwise. *)
Theorem log_reaches_gateway_iff_accepted (w : World) (ps : list (LogLevel * string))
  (lv : LogLevel) (m : string) :
  lv <> SIGSTOP ->
  logging (w_logger w) = true ->
  is_Some (file_gateway (w_logger w)) ->
  q_items (message_queue (w_logger w)) = map Some ps ->
  match queue_processing_task (w_logger w) with
  | None => ps = []
  | Some CDone => False
  | Some _ => True
  end ->
  w_stream (drain (2 * length ps + 3) (set_w_logger w (log (w_logger w) lv m)))
  = w_stream w ++ map (forwarded w)
      (ps ++ (if spec_accepts (level (w_logger w)) lv then [(lv, m)] else [])).
Proof.
  destruct w as [[nm lvl [items u] task lg gw fl] s con ts sp].
  remember (2 * length ps + 3) as fuel eqn:Hfuel.
  simpl. intros Hstop -> [g ->] -> Htask.
  unfold set_w_logger, log, _create, forwarded, spec_accepts; cbv zeta; simpl.
  destruct (decide (lvl = QUIET)) as [->|Hq].
  - rewrite bool_decide_false by congruence. simpl. rewrite app_nil_r.
    destruct task as [[| |]|].
    + replace fuel with (S (2 * length ps + 2)) by lia.
      apply drain_running; auto.
    + replace fuel with (S (2 * length ps + 2)) by lia.
      apply drain_running; auto.
    + contradiction.
    + subst ps. rewrite drain_idle by reflexivity. simpl. rewrite app_nil_r. reflexivity.
  - destruct (decide (lv = SIGSTOP)) as [|_]; [contradiction|].
    rewrite (bool_decide_true (lvl <> QUIET)) by exact Hq. simpl andb. rewrite Z.geb_leb.
    destruct (Z.leb (value lvl) (value lv)).
    + assert (Hf : fuel = S (2 * length (ps ++ [(lv, m)]) + 0))
        by (rewrite length_app; simpl; lia).
      destruct task as [[| |]|]; cbv [set_queue set_task set_logging q_put]; simpl;
        rewrite Hf;
        change (map Some ps ++ [Some (lv, m)]) with (map Some ps ++ map Some [(lv, m)]);
        rewrite <- map_app;
        solve [ apply drain_running; auto | contradiction ].
    + rewrite app_nil_r.
      destruct task as [[| |]|]; simpl;
        try solve [contradiction];
        replace fuel with (S (2 * length ps + 2)) by lia;
        apply drain_running; auto.
Qed.

Lemma log_reaches_gateway_iff_accepted_witness :
  INFO <> SIGSTOP /\
  w_stream (drain (2 * length (@nil (LogLevel * string)) + 3)
              (set_w_logger world0 (log (w_logger world0) INFO "a")))
  = w_stream world0 ++ map (forwarded world0)
      ([] ++ (if spec_accepts (level (w_logger world0)) INFO then [(INFO, "a")] else [])).
Proof.
  split; [discriminate|].
  apply (log_reaches_gateway_iff_accepted world0 [] INFO "a");
    [discriminate | reflexivity | eexists; reflexivity | reflexivity | reflexivity].
Defined.

(** C6 (as amended). Passing SIGSTOP to [log] does no rank comparison and
    ignores the message text: with any threshold other than QUIET it puts
    [None] on the logger's own queue and returns (the consumer is not
    started); with threshold QUIET it does nothing at all. A consumer that
    takes [None] forwards [None] to its gateway's stream, writes nothing to
    the console and finishes. *)
Theorem log_stop_sentinel_routing (l : Logger) (m : string) (rest : list Item) (u : nat)
  (s : list (option string)) (con : list string) (ts : string) (sp : StopPC) :
  log l SIGSTOP m
  = (if decide (level l = QUIET) then l else set_queue l (q_put None (message_queue l)))
  /\ consumer_step
       (mkWorld (set_task (set_queue l (mkQueue (None :: rest) u)) (Some CGet)) s con ts sp)
     = Some (mkWorld (set_task (set_queue l (mkQueue rest u)) (Some CDone))
               (gw_enqueue l None s) con ts sp).
Proof.
  split.
  - unfold log; cbv zeta.
    destruct (decide (level l = QUIET)); [reflexivity|].
    destruct (decide (SIGSTOP = SIGSTOP)); [reflexivity|congruence].
  - destruct l; reflexivity.
Qed.

(** C6, counterexample: under threshold QUIET, [log(SIGSTOP, _)] returns
    before the SIGSTOP test and nothing reaches the queue. *)
Lemma quiet_logger_drops_stop_sentinel :
  q_items (message_queue (log (set_level_field registered_logger QUIET) SIGSTOP "")) = [].
Proof. reflexivity. Qed.

End LoggerFacts.

Module RegistryFacts.
Import LoggerRt Gateway Registry Scenarios.

Lemma dict_get_app {V} (k : string) (d1 d2 : list (string * V)) :
  dict_get k (d1 ++ d2)
  = match dict_get k d1 with Some v => Some v | None => dict_get k d2 end.
Proof.
  induction d1 as [|[k' v] d1 IH]; simpl; [reflexivity|].
  destruct (String.eqb k k'); [reflexivity|exact IH].
Qed.

Lemma dict_get_single {V} (k : string) (v : V) : dict_get k [(k, v)] = Some v.
Proof. simpl. rewrite String.eqb_refl. reflexivity. Qed.

Lemma _get_composer_registered (st : State) :
  composer_instance (_get_composer st).1 = Some (_get_composer st).2.
Proof. unfold _get_composer. destruct (composer_instance st) eqn:E; [exact E|reflexivity]. Qed.

(** What a successful [add_logger] of a new name leaves in the composer. *)
Lemma add_logger_fresh (st : State) (c : Composer) (nm : string) (lid : nat)
  (file : string) (gid : nat) :
  dict_get nm (loggers c) = None ->
  exists st', add_logger st c nm lid file gid = Some st'
    /\ composer_instance st' = Some (mkComposer (loggers c ++ [(nm, (lid, file, gid))]) (c_level c))
    /\ meta_instance st' = meta_instance st.
Proof. intros H. unfold add_logger. rewrite H. eexists. split; [reflexivity|]. split; reflexivity. Qed.

(** A call that returns a logger leaves it registered under the name read
    from the keyword arguments. *)
Lemma get_or_create_registers (st : State) (args : list string)
  (kwargs : list (string * string)) (lid : nat) :
  (get_or_create args kwargs st).2 = Some lid ->
  exists c p g, composer_instance (get_or_create args kwargs st).1 = Some c
    /\ dict_get (kw_get kwargs "name" "default") (loggers c) = Some (lid, p, g).
Proof.
  unfold get_or_create.
  pose proof (_get_composer_registered st) as Hreg.
  destruct (_get_composer st) as [st1 c]; simpl in Hreg.
  destruct (dict_get (kw_get kwargs "name" "default") (loggers c)) as [[[l0 p0] g0]|] eqn:Hd.
  - simpl. intros [= <-]. eauto.
  - match goal with
    | |- context [match ?x with pair _ _ => _ end] => destruct x as [st2 gid]
    end.
    destruct (bind_init args kwargs) as [[nm file]|]; [|discriminate].
    destruct (add_logger_fresh (set_heap_loggers st2
                (heap_loggers st2 ++ [set_file_gateway (init_logger nm file) (Some gid)]))
                c _ (length (heap_loggers st2))
                ("./logs/" ++ kw_get kwargs "file" "log.txt")%string gid Hd)
      as (st' & -> & Hc & _).
    simpl. intros [= <-]. do 3 eexists. split; [exact Hc|].
    simpl. rewrite dict_get_app, Hd, dict_get_single. reflexivity.
Qed.

(** A call naming a registered logger returns it and changes nothing. *)
Lemma get_or_create_existing (st : State) (c : Composer) (args : list string)
  (kwargs : list (string * string)) (lid : nat) (p : string) (g : nat) :
  composer_instance st = Some c ->
  dict_get (kw_get kwargs "name" "default") (loggers c) = Some (lid, p, g) ->
  get_or_create args kwargs st = (st, Some lid).
Proof.
  intros Hc Hd. unfold get_or_create, _get_composer. rewrite Hc. simpl. rewrite Hd.
  reflexivity.
Qed.

(** C4. Get-or-create is idempotent in the name: when the name given as
    keyword is registered, the call returns the registered logger and
    changes nothing (the [file] argument is not looked at); and a second
    call with the name of a first successful call returns the same logger
    and changes nothing. *)
Theorem get_or_create_idempotent :
  (forall (st : State) (c : Composer) (args : list string)
          (kwargs : list (string * string)) (lid : nat) (p : string) (g : nat),
     composer_instance st = Some c ->
     dict_get (kw_get kwargs "name" "default") (loggers c) = Some (lid, p, g) ->
     get_or_create args kwargs st = (st, Some lid))
  /\ (forall (st : State) (args1 args2 : list string)
             (kw1 kw2 : list (string * string)) (lid : nat),
     kw_get kw1 "name" "default" = kw_get kw2 "name" "default" ->
     (get_or_create args1 kw1 st).2 = Some lid ->
     get_or_create args2 kw2 (get_or_create args1 kw1 st).1
     = ((get_or_create args1 kw1 st).1, Some lid)).
Proof.
  split; [exact get_or_create_existing|].
  intros st args1 args2 kw1 kw2 lid Hn Hr.
  destruct (get_or_create_registers _ _ _ _ Hr) as (c & p & g & Hc & Hd).
  apply (get_or_create_existing _ c _ _ _ p g Hc). rewrite <- Hn. exact Hd.
Qed.

(** C7 (as amended). [set_level] assigns exactly when the current threshold
    is NOTSET, the unset value; from an unset threshold, after
    [set_level(a)] with [a] other than NOTSET a later [set_level(b)] changes
    nothing; from a set threshold both calls change nothing. *)
Theorem set_level_sticky_first_write (l : Logger) (a b : LogLevel) :
  level (set_level l a) = (if decide (level l = NOTSET) then a else level l)
  /\ (level l = NOTSET -> a <> NOTSET -> set_level (set_level l a) b = set_level l a
                                          /\ level (set_level (set_level l a) b) = a)
  /\ (level l <> NOTSET -> set_level (set_level l a) b = l).
Proof.
  unfold set_level.
  destruct (decide (level l <> NOTSET)) as [E|E].
  - split; [destruct (decide (level l = NOTSET)); [contradiction|reflexivity]|].
    split; [intros; contradiction|].
    intros _. destruct (decide (level l <> NOTSET)); [reflexivity|contradiction].
  - assert (En : level l = NOTSET) by (destruct (decide (level l = NOTSET)); tauto).
    split; [destruct (decide (level l = NOTSET)); [reflexivity|contradiction]|].
    split.
    + intros _ Ha. simpl. destruct (decide (a <> NOTSET)); [|contradiction].
      split; reflexivity.
    + intros; contradiction.
Qed.

(** C7, counterexample: on a fresh logger, [set_level(NOTSET)] followed by
    [set_level(INFO)] ends with INFO: the first call assigned the unset
    value, so the second call was not ignored. *)
Lemma set_level_notset_then_info :
  level (set_level (set_level (init_logger "X" "log.txt") NOTSET) INFO) = INFO.
Proof. reflexivity. Qed.

(** C5 (code bug). [stop_logging] / [_stop_all_sig] stops nothing: every
    logger and every gateway object on the heap is left exactly as it was
    (a running logger keeps [_logging = True] and its consumer task, a
    running gateway keeps its writer), because [stop_everything] never
    awaits the [stop()] coroutines it creates; only the directory is
    emptied. Nor is a call without a composer a no-op: [_get_composer]
    then creates a DEBUG composer and registers it in both class
    attributes. *)
Theorem stop_logging_stops_nothing (st : State) :
  heap_loggers (_stop_all_sig st).1 = heap_loggers st
  /\ heap_gateways (_stop_all_sig st).1 = heap_gateways st
  /\ (exists c1, composer_instance (_stop_all_sig st).1 = Some c1 /\ loggers c1 = [])
  /\ (composer_instance st = None ->
      composer_instance (_stop_all_sig st).1 = Some (mkComposer [] DEBUG)
      /\ meta_instance (_stop_all_sig st).1 = true).
Proof.
  destruct st as [[c|] m hl hg t]; cbn.
  - split; [reflexivity|]. split; [reflexivity|]. split; [eauto|]. discriminate.
  - split; [reflexivity|]. split; [reflexivity|]. split; [eauto|]. auto.
Qed.

(** On the scenario of one logger created by name: after [stop_logging()]
    logger 0 still has [_logging = True], so a message logged afterwards is
    still queued and its consumer task started, and gateway 0 still has
    [_logging = True] and its writer task. *)
Lemma stop_logging_scenario_still_running :
  let st := (_stop_all_sig (exec_ops [OGetOrCreate [] [("name", "a")]] init_state)).1 in
  (exists lo, heap_loggers st !! 0 = Some lo /\ logging lo = true
              /\ message_queue (log lo INFO "m") <> message_queue lo
              /\ queue_processing_task (log lo INFO "m") <> None)
  /\ (exists g, heap_gateways st !! 0 = Some g /\ gw_logging g = true
                /\ processing_task g = true).
Proof.
  cbv zeta. split.
  - eexists. split; [vm_compute; reflexivity|]. vm_compute.
    split; [reflexivity|]. split; discriminate.
  - eexists. split; [vm_compute; reflexivity|]. vm_compute. split; reflexivity.
Qed.

Lemma _get_composer_cases (st : State) :
  composer_instance st = Some (_get_composer st).2 \/ loggers (_get_composer st).2 = [].
Proof. unfold _get_composer. destruct (composer_instance st); [left|right]; reflexivity. Qed.

(** C10. The registry key is read from the keyword arguments only: when no
    logger is registered as "default", [Logger(a1, f1)] registers its new
    logger (whose [name] and [_file_location] are [a1] and [f1]) under
    "default" with destination "./logs/log.txt", and a following
    [Logger(a2, f2)] returns that same logger and changes nothing. *)
Theorem positional_args_register_default (st : State) (a1 f1 a2 f2 : string) :
  (forall c0, composer_instance st = Some c0 -> dict_get "default" (loggers c0) = None) ->
  exists lid g c lo,
    (get_or_create [a1; f1] [] st).2 = Some lid
    /\ composer_instance (get_or_create [a1; f1] [] st).1 = Some c
    /\ dict_get "default" (loggers c) = Some (lid, "./logs/log.txt", g)
    /\ heap_loggers (get_or_create [a1; f1] [] st).1 !! lid = Some lo
    /\ name lo = a1 /\ file_location lo = f1
    /\ get_or_create [a2; f2] [] (get_or_create [a1; f1] [] st).1
       = ((get_or_create [a1; f1] [] st).1, Some lid).
Proof.
  intros Hfresh.
  assert (Hd : dict_get "default" (loggers (_get_composer st).2) = None).
  { destruct (_get_composer_cases st) as [H|H]; [exact (Hfresh _ H)|rewrite H; reflexivity]. }
  pose proof (_get_composer_registered st) as Hreg.
  remember (get_or_create [a1; f1] [] st) as r eqn:Er.
  unfold get_or_create in Er.
  destruct (_get_composer st) as [st1 c]; simpl in Hd, Hreg.
  change (kw_get [] "name" "default") with "default" in Er.
  change (kw_get [] "file" "log.txt") with "log.txt" in Er.
  change (bind_init [a1; f1] []) with (Some (a1, f1)) in Er.
  change ("./logs/" ++ "log.txt")%string with "./logs/log.txt" in Er.
  rewrite Hd in Er.
  match type of Er with
  | context [match ?x with pair _ _ => _ end] => destruct x as [st2 gid]
  end.
  destruct (add_logger_fresh (set_heap_loggers st2
              (heap_loggers st2 ++ [set_file_gateway (init_logger a1 f1) (Some gid)]))
              c "default" (length (heap_loggers st2)) "./logs/log.txt" gid Hd)
    as (st' & Hadd & Hc & _).
  rewrite Hadd in Er. subst r. simpl.
  assert (Hd' : dict_get "default" (loggers (mkComposer (loggers c ++
                  [("default", (length (heap_loggers st2), "./logs/log.txt", gid))]) (c_level c)))
                = Some (length (heap_loggers st2), "./logs/log.txt", gid)).
  { simpl. rewrite dict_get_app, Hd, dict_get_single. reflexivity. }
  exists (length (heap_loggers st2)), gid,
    (mkComposer (loggers c ++ [("default", (length (heap_loggers st2), "./logs/log.txt", gid))])
       (c_level c)),
    (set_level_field (set_file_gateway (init_logger a1 f1) (Some gid)) (c_level c)).
  split; [reflexivity|]. split; [exact Hc|]. split; [exact Hd'|].
  split.
  - unfold add_logger in Hadd. rewrite Hd in Hadd. injection Hadd as <-. simpl.
    rewrite (list_lookup_middle (heap_loggers st2) [] _ _ eq_refl).
    apply list_lookup_insert_eq. rewrite length_app. simpl. lia.
  - split; [reflexivity|]. split; [reflexivity|].
    apply (get_or_create_existing _ _ [a2; f2] [] _ _ _ Hc Hd').
Qed.

Lemma positional_args_register_default_witness :
  (forall c0, composer_instance init_state = Some c0 ->
              dict_get "default" (loggers c0) = None)
  /\ exists lid g c lo,
    (get_or_create ["PostgreSQL"; "network.log"] [] init_state).2 = Some lid
    /\ composer_instance (get_or_create ["PostgreSQL"; "network.log"] [] init_state).1 = Some c
    /\ dict_get "default" (loggers c) = Some (lid, "./logs/log.txt", g)
    /\ heap_loggers (get_or_create ["PostgreSQL"; "network.log"] [] init_state).1 !! lid = Some lo
    /\ name lo = "PostgreSQL" /\ file_location lo = "network.log"
    /\ get_or_create ["Scrapper"; "network.log"] []
         (get_or_create ["PostgreSQL"; "network.log"] [] init_state).1
       = ((get_or_create ["PostgreSQL"; "network.log"] [] init_state).1, Some lid).
Proof.
  split; [intros c0 H; discriminate H|].
  apply (positional_args_register_default init_state "PostgreSQL" "network.log"
           "Scrapper" "network.log").
  intros c0 H; discriminate H.
Defined.

End RegistryFacts.

Module GatewayFacts.
Import Gateway.

(** A gateway whose [_rot_amt] has the shape of its [_rot_type] keeps it
    through [set_file_rotation] when no exception escapes. *)
Lemma set_file_rotation_config_ok (g : FileGateway) (rt : RotType) (amt : string) :
  config_ok g -> (set_file_rotation g rt amt).2 = false ->
  config_ok (set_file_rotation g rt amt).1.
Proof.
  unfold set_file_rotation.
  destruct (decide (rot_type g <> NONE)); [tauto|].
  intros _. destruct rt; simpl.
  - intros _. exact I.
  - destruct (convert_str_to_timestamp amt); simpl; [intros _; exact I|discriminate].
  - destruct (convert_str_to_size amt); simpl; [intros _; exact I|discriminate].
  - destruct (split_on _ amt) as [|ts [|ss [|]]]; simpl; try discriminate.
    destruct (convert_str_to_timestamp ts); simpl; [|discriminate].
    destruct (convert_str_to_size ss); simpl; [intros _; exact I|discriminate].
Qed.

(** C8. With the arguments [_stream_process] passes (the current time and
    the current segment file size, both ints) and a rotation amount of the
    shape of the rotation type, [rotate_if_needed] returns true exactly
    when the policy is exceeded: never under NONE; under SIZE when the size
    is at least the byte threshold; under TIME when the seconds since the
    segment start strictly exceed the threshold; under TIME_SIZE when either
    holds. *)
Theorem rotate_if_needed_matches_policy (g : FileGateway) (t s : Z) :
  config_ok g ->
  rotate_if_needed g (Some t) (Some s) = Some (policy_exceeded g t s).
Proof.
  destruct g as [loc st task lg rt amt]. unfold config_ok, rotate_if_needed, policy_exceeded.
  simpl. intros Hok.
  destruct rt; destruct amt as [|n|a b]; try contradiction; simpl; try reflexivity.
  - rewrite Z.gtb_ltb. destruct (Z.ltb n (t - st)); reflexivity.
  - rewrite Z.geb_leb. destruct (Z.leb n s); reflexivity.
  - rewrite Z.gtb_ltb, Z.geb_leb. destruct (Z.ltb a (t - st)); reflexivity.
Qed.

Lemma rotate_if_needed_matches_policy_witness :
  config_ok (set_file_rotation (init_gateway "./logs/log.txt" 100) SIZE "10 bytes").1
  /\ rotate_if_needed (set_file_rotation (init_gateway "./logs/log.txt" 100) SIZE "10 bytes").1
       (Some 105%Z) (Some 12%Z)
     = Some (policy_exceeded (set_file_rotation (init_gateway "./logs/log.txt" 100) SIZE "10 bytes").1
               105 12).
Proof.
  split; [vm_compute; exact I|].
  apply rotate_if_needed_matches_policy. vm_compute. exact I.
Defined.

End GatewayFacts.

Module RegistryInvariants.
Import LoggerRt Gateway Registry Invariants RegistryFacts.

Lemma get_gateway_if_exists_Some (d : list (string * (nat * string * nat))) (p : string) (g : nat) :
  get_gateway_if_exists d p = Some g -> exists n l, (n, (l, p, g)) ∈ d.
Proof.
  induction d as [|[n [[l p'] g']] d IH]; simpl; [discriminate|].
  destruct (String.eqb p' p) eqn:E.
  - apply String.eqb_eq in E as ->. intros [= ->]. exists n, l. left.
  - intros H. destruct (IH H) as (n' & l' & Hin). exists n', l'. right. exact Hin.
Qed.

Lemma get_gateway_if_exists_None (d : list (string * (nat * string * nat))) (p : string) :
  get_gateway_if_exists d p = None -> forall n l g, (n, (l, p, g)) ∉ d.
Proof.
  induction d as [|[n [[l p'] g']] d IH]; simpl; intros H n0 l0 g0 Hin.
  - inversion Hin.
  - destruct (String.eqb p' p) eqn:E; [discriminate|].
    inversion Hin as [|? ? ? Hin']; subst.
    + rewrite String.eqb_refl in E. discriminate.
    + exact (IH H _ _ _ Hin').
Qed.

Lemma gs_empty (st : State) (c : Composer) :
  composer_instance st = Some c -> loggers c = [] -> gateways_shared st.
Proof.
  intros Hc Hl c' Hc'. rewrite Hc in Hc'. injection Hc' as <-. rewrite Hl.
  split; intros *; intros Hin; inversion Hin.
Qed.

Lemma gs_transfer (st st' : State) :
  gateways_shared st -> composer_instance st' = composer_instance st -> heap_grows st st' ->
  gateways_shared st'.
Proof.
  intros Hgs Hc [Hl Hh] c Hc'. rewrite Hc in Hc'.
  destruct (Hgs c Hc') as [H1 H2]. split; [|exact H2].
  intros n lid p gid Hin. destruct (H1 _ _ _ _ Hin) as [Hlt (lo & Hlo & Hf)].
  split; [lia|]. destruct (Hh _ _ Hlo) as (lo' & Hlo' & Hf').
  exists lo'. split; [exact Hlo'|congruence].
Qed.

Lemma heap_update_grows (st : State) (lid : nat) (f : Logger -> Logger) :
  (forall lo, file_gateway (f lo) = file_gateway lo) -> heap_grows st (heap_update st lid f).
Proof.
  intros Hf. unfold heap_update.
  destruct (heap_loggers st !! lid) as [lo|] eqn:E.
  - split; [simpl; lia|]. intros i lo0 Hi. simpl. rewrite list_lookup_insert.
    destruct (decide (lid = i /\ lid < length (heap_loggers st))) as [[-> _]|_].
    + rewrite E in Hi. injection Hi as ->. eexists; split; [reflexivity|apply Hf].
    + exists lo0. split; [exact Hi|reflexivity].
  - split; [lia|]. intros i lo0 Hi. exists lo0. split; [exact Hi|reflexivity].
Qed.

Lemma log_keeps_fields (l : Logger) (lv : LogLevel) (m : string) :
  file_gateway (log l lv m) = file_gateway l /\ level (log l lv m) = level l.
Proof.
  unfold log, _create; cbv zeta.
  destruct (decide (level l = QUIET)); [split; reflexivity|].
  destruct (decide (lv = SIGSTOP)); [split; reflexivity|].
  destruct (Z.geb _ _); simpl;
    repeat match goal with
           | |- context [match ?x with _ => _ end] => destruct x
           | |- context [if ?b then _ else _] => destruct b
           end; split; reflexivity.
Qed.

Lemma gs_heap_set_level (st : State) (lid : nat) (lv : LogLevel) :
  gateways_shared st -> gateways_shared (heap_set_level st lid lv).
Proof.
  intros Hgs. apply (gs_transfer st); [exact Hgs|unfold heap_set_level; destruct (_ !! _); reflexivity|].
  apply (heap_update_grows st lid (fun lo => set_level lo lv)).
  intros lo. unfold set_level. destruct (decide _); reflexivity.
Qed.

Lemma gs_heap_log (st : State) (lid : nat) (lv : LogLevel) (m : string) :
  gateways_shared st -> gateways_shared (heap_log st lid lv m).
Proof.
  intros Hgs. apply (gs_transfer st); [exact Hgs|unfold heap_log; destruct (_ !! _); reflexivity|].
  apply (heap_update_grows st lid (fun lo => log lo lv m)).
  intros lo. apply log_keeps_fields.
Qed.

Lemma gs_get_composer (st : State) :
  gateways_shared st -> gateways_shared (_get_composer st).1.
Proof.
  unfold _get_composer. destruct (composer_instance st) eqn:E; [tauto|].
  intros _. apply (gs_empty _ (mkComposer [] (loglevel_dict_get "DEBUG"))); reflexivity.
Qed.
(** Registering a fresh name whose gateway is allocated and shared by all
    entries of the same path keeps the invariant. *)
Lemma gs_register (st2 : State) (c : Composer) (nm p : string) (gid : nat) (lo : Logger) :
  gateways_shared st2 -> composer_instance st2 = Some c ->
  dict_get nm (loggers c) = None -> gid < length (heap_gateways st2) ->
  (forall n l g, (n, (l, p, g)) ∈ loggers c -> g = gid) ->
  file_gateway lo = Some gid ->
  exists st4, add_logger (set_heap_loggers st2 (heap_loggers st2 ++ [lo])) c nm
                (length (heap_loggers st2)) p gid = Some st4
              /\ gateways_shared st4.
Proof.
  intros Hgs Hc Hd Hlt Hpath Hlo. destruct (Hgs c Hc) as [H1 H2].
  unfold add_logger. rewrite Hd. eexists; split; [reflexivity|]. cbn [heap_loggers heap_gateways set_heap_loggers].
  rewrite list_lookup_middle by reflexivity.
  destruct (lookup_lt_is_Some_2 (heap_gateways st2) gid Hlt) as [g Hg]. rewrite Hg.
  intros c' Hc'. injection Hc' as <-. cbn [loggers heap_loggers heap_gateways]. split.
  - intros n l p' g' Hin. apply elem_of_app in Hin as [Hin|Hin].
    + destruct (H1 _ _ _ _ Hin) as [Hlt' (lo0 & Hl0 & Hf0)]. split.
      * rewrite length_insert. exact Hlt'.
      * exists lo0. split; [|exact Hf0].
        pose proof (lookup_lt_Some _ _ _ Hl0) as Hl.
        rewrite list_lookup_insert_ne by lia.
        rewrite lookup_app_l by lia. exact Hl0.
    + apply list_elem_of_singleton in Hin. injection Hin as -> -> -> ->. split.
      * rewrite length_insert. exact Hlt.
      * eexists; split.
        -- apply list_lookup_insert_eq. rewrite length_app. simpl. lia.
        -- exact Hlo.
  - intros n1 l1 g1 n2 l2 g2 p' Hin1 Hin2.
    apply elem_of_app in Hin1 as [Hin1|Hin1]; apply elem_of_app in Hin2 as [Hin2|Hin2].
    + exact (H2 _ _ _ _ _ _ _ Hin1 Hin2).
    + apply list_elem_of_singleton in Hin2. injection Hin2 as -> -> -> ->.
      exact (Hpath _ _ _ Hin1).
    + apply list_elem_of_singleton in Hin1. injection Hin1 as -> -> -> ->.
      symmetry. exact (Hpath _ _ _ Hin2).
    + apply list_elem_of_singleton in Hin1, Hin2.
      injection Hin1 as -> -> -> ->. injection Hin2 as -> -> ->. reflexivity.
Qed.

Lemma gs_get_or_create (st : State) (args : list string) (kwargs : list (string * string)) :
  gateways_shared st -> gateways_shared (get_or_create args kwargs st).1.
Proof.
  intros Hgs. pose proof (gs_get_composer st Hgs) as Hgs1.
  pose proof (_get_composer_registered st) as Hreg.
  unfold get_or_create.
  destruct (_get_composer st) as [st1 c]. cbn [fst snd] in Hgs1, Hreg.
  destruct (dict_get _ (loggers c)) as [[[l0 p0] g0]|] eqn:Hd; [exact Hgs1|].
  set (p := ("./logs/" ++ kw_get kwargs "file" "log.txt")%string).
  assert (Hch : exists st2 gid,
    match get_gateway_if_exists (loggers c) p with
    | Some g => (st1, g)
    | None => (set_heap_gateways st1 (heap_gateways st1 ++ [init_gateway p (now st1)]),
               length (heap_gateways st1))
    end = (st2, gid)
    /\ gateways_shared st2 /\ composer_instance st2 = Some c
    /\ gid < length (heap_gateways st2)
    /\ (forall n l g, (n, (l, p, g)) ∈ loggers c -> g = gid)).
  { destruct (get_gateway_if_exists (loggers c) p) as [g|] eqn:Hgw.
    - destruct (get_gateway_if_exists_Some _ _ _ Hgw) as (n & l & Hin).
      destruct (Hgs1 c Hreg) as [H1 H2].
      exists st1, g. split; [reflexivity|]. split; [exact Hgs1|]. split; [exact Hreg|].
      split; [exact (proj1 (H1 _ _ _ _ Hin))|].
      intros n' l' g' Hin'. exact (H2 _ _ _ _ _ _ _ Hin' Hin).
    - eexists _, _. split; [reflexivity|]. split; [|split; [exact Hreg|split]].
      + apply (gs_transfer st1); [exact Hgs1|reflexivity|].
        split; [cbn; rewrite length_app; lia|].
        intros lid lo Hlo. exists lo. split; [exact Hlo|reflexivity].
      + cbn [heap_gateways set_heap_gateways]. rewrite length_app. simpl. lia.
      + intros n l g Hin. exfalso. exact (get_gateway_if_exists_None _ _ Hgw _ _ _ Hin). }
  destruct Hch as (st2 & gid & -> & Hgs2 & Hc2 & Hlt & Hpath).
  destruct (bind_init args kwargs) as [[nm file]|]; [|exact Hgs2].
  cbv zeta.
  destruct (gs_register st2 c _ p gid (set_file_gateway (init_logger nm file) (Some gid))
              Hgs2 Hc2 Hd Hlt Hpath eq_refl) as (st4 & Hadd & Hgs4).
  rewrite Hadd. exact Hgs4.
Qed.

Lemma gs_exec_op (o : Op) (st : State) :
  gateways_shared st -> gateways_shared (exec_op o st).
Proof.
  intros Hgs. destruct o as [args kwargs|lid lv|lid lv m|nm| |s| |t]; cbn [exec_op].
  - apply gs_get_or_create. exact Hgs.
  - apply gs_heap_set_level. exact Hgs.
  - apply gs_heap_log. exact Hgs.
  - unfold remove_logger. destruct (composer_instance st) as [c|] eqn:Hc; [|exact Hgs].
    destruct (dict_get nm (loggers c)) as [x|]; [|exact Hgs]. cbn [default].
    destruct (Hgs c Hc) as [H1 H2].
    intros c' Hc'. injection Hc' as <-. cbn [loggers]. unfold dict_del. split.
    + intros n l p g Hin. apply list_elem_of_filter in Hin as [_ Hin]. exact (H1 _ _ _ _ Hin).
    + intros n1 l1 g1 n2 l2 g2 p Hin1 Hin2.
      apply list_elem_of_filter in Hin1 as [_ Hin1]. apply list_elem_of_filter in Hin2 as [_ Hin2].
      exact (H2 _ _ _ _ _ _ _ Hin1 Hin2).
  - unfold _stop_all_sig. destruct (_get_composer st) as [st1 c].
    apply (gs_empty _ (mkComposer [] (c_level c))); reflexivity.
  - unfold set_instance. destruct (composer_instance st); [exact Hgs|].
    apply (gs_empty _ (mkComposer [] (loglevel_dict_get s))); reflexivity.
  - unfold set_level_if_not_set. destruct (composer_instance st) as [c|]; [|exact Hgs].
    generalize st Hgs. clear st Hgs.
    induction (loggers c) as [|[n [[lid p] gid]] es IH]; intros st Hgs; [exact Hgs|].
    cbn [fold_left]. apply IH. apply gs_heap_set_level. exact Hgs.
  - apply (gs_transfer st); [exact Hgs|reflexivity|].
    split; [cbn; lia|]. intros lid lo Hlo. exists lo. split; [exact Hlo|reflexivity].
Qed.

Lemma gs_exec_ops (os : list Op) (st : State) :
  gateways_shared st -> gateways_shared (exec_ops os st).
Proof.
  unfold exec_ops. revert st. induction os as [|o os IH]; intros st Hgs; [exact Hgs|].
  cbn [fold_left]. apply IH. apply gs_exec_op. exact Hgs.
Qed.

Lemma gs_init : gateways_shared init_state.
Proof. intros c Hc. discriminate. Qed.
(** A get-or-create of a new name on a path some entry already uses
    allocates no gateway, and the new logger points to that entry's gateway. *)
Lemma get_or_create_reuses_gateway (st : State) (args : list string)
  (kwargs : list (string * string)) (c : Composer) (n : string) (lid gid : nat) :
  gateways_shared st -> composer_instance st = Some c ->
  dict_get (kw_get kwargs "name" "default") (loggers c) = None ->
  (n, (lid, ("./logs/" ++ kw_get kwargs "file" "log.txt")%string, gid)) ∈ loggers c ->
  length (heap_gateways (get_or_create args kwargs st).1) = length (heap_gateways st)
  /\ forall lid', (get_or_create args kwargs st).2 = Some lid' ->
     exists lo, heap_loggers (get_or_create args kwargs st).1 !! lid' = Some lo
                /\ file_gateway lo = Some gid.
Proof.
  intros Hgs Hc Hd Hin. destruct (Hgs c Hc) as [H1 H2].
  destruct (get_gateway_if_exists (loggers c) ("./logs/" ++ kw_get kwargs "file" "log.txt")%string)
    as [g|] eqn:Hgw;
    [|exfalso; exact (get_gateway_if_exists_None _ _ Hgw _ _ _ Hin)].
  destruct (get_gateway_if_exists_Some _ _ _ Hgw) as (n' & l' & Hin').
  pose proof (H2 _ _ _ _ _ _ _ Hin' Hin) as ->.
  destruct (H1 _ _ _ _ Hin) as [Hlt _].
  unfold get_or_create, _get_composer. rewrite Hc. cbn [fst snd]. rewrite Hd, Hgw.
  destruct (bind_init args kwargs) as [[nm file]|]; [|split; [reflexivity|discriminate]].
  cbv zeta. unfold add_logger. rewrite Hd.
  cbn [heap_loggers heap_gateways set_heap_loggers].
  rewrite list_lookup_middle by reflexivity.
  destruct (lookup_lt_is_Some_2 _ _ Hlt) as [g Hg]. rewrite Hg. cbn [fst snd heap_gateways heap_loggers].
  split.
  - apply length_insert.
  - intros lid' [= <-]. eexists; split.
    + apply list_lookup_insert_eq. rewrite length_app. simpl. lia.
    + reflexivity.
Qed.

Lemma ad_heap_update (st : State) (lid : nat) (f : Logger -> Logger) :
  auto_debug st -> (forall lo, level lo = DEBUG -> level (f lo) = DEBUG) ->
  auto_debug (heap_update st lid f).
Proof.
  intros [H1 H2] Hf. unfold heap_update.
  destruct (heap_loggers st !! lid) as [lo|] eqn:E; [|split; assumption].
  split.
  - intros Hc. destruct (H1 Hc) as [Hh _]. rewrite Hh in E. discriminate.
  - intros Hm. destruct (H2 Hm) as (c & Hc & Hl & Hall).
    exists c. split; [exact Hc|]. split; [exact Hl|]. cbn [heap_loggers set_heap_loggers].
    apply Forall_insert; [exact Hall|]. apply Hf.
    exact (proj1 (Forall_lookup _ _) Hall _ _ E).
Qed.

Lemma set_level_keeps_debug (lo : Logger) (lv : LogLevel) :
  level lo = DEBUG -> set_level lo lv = lo.
Proof.
  intros H. unfold set_level. rewrite H. destruct (decide (DEBUG <> NOTSET)) as [_|n]; [reflexivity|].
  exfalso. apply n. discriminate.
Qed.

Lemma ad_heap_set_level (st : State) (lid : nat) (lv : LogLevel) :
  auto_debug st -> auto_debug (heap_set_level st lid lv).
Proof.
  intros H. apply (ad_heap_update st lid (fun lo => set_level lo lv)); [exact H|].
  intros lo Hlo. rewrite set_level_keeps_debug; exact Hlo.
Qed.

Lemma ad_heap_log (st : State) (lid : nat) (lv : LogLevel) (m : string) :
  auto_debug st -> auto_debug (heap_log st lid lv m).
Proof.
  intros H. apply (ad_heap_update st lid (fun lo => log lo lv m)); [exact H|].
  intros lo Hlo. rewrite (proj2 (log_keeps_fields lo lv m)). exact Hlo.
Qed.

Lemma ad_get_composer (st : State) :
  auto_debug st ->
  auto_debug (_get_composer st).1
  /\ (meta_instance (_get_composer st).1 = true -> c_level (_get_composer st).2 = DEBUG).
Proof.
  intros Had. unfold _get_composer. destruct (composer_instance st) as [c|] eqn:E.
  - cbn [fst snd]. split; [exact Had|]. intros Hm. destruct Had as [_ H2].
    destruct (H2 Hm) as (c0 & Hc0 & Hl & _). congruence.
  - destruct Had as [H1 _]. destruct (H1 E) as [Hh _]. cbn [fst snd]. split; [|reflexivity]. split.
    + discriminate.
    + intros _. eexists; split; [reflexivity|]. split; [reflexivity|].
      cbn [heap_loggers]. rewrite Hh. constructor.
Qed.

(** Registering a fresh name keeps the invariant: the new logger's level
    becomes the composer's. *)
Lemma ad_register (st2 : State) (c : Composer) (nm p : string) (gid : nat) (lo : Logger) :
  auto_debug st2 -> composer_instance st2 = Some c ->
  (meta_instance st2 = true -> c_level c = DEBUG) ->
  dict_get nm (loggers c) = None ->
  exists st4, add_logger (set_heap_loggers st2 (heap_loggers st2 ++ [lo])) c nm
                (length (heap_loggers st2)) p gid = Some st4
              /\ auto_debug st4.
Proof.
  intros [H1 H2] Hc Hlvl Hd. unfold add_logger. rewrite Hd.
  eexists; split; [reflexivity|]. cbn [heap_loggers heap_gateways set_heap_loggers meta_instance].
  rewrite list_lookup_middle by reflexivity. split; [discriminate|].
  intros Hm. destruct (H2 Hm) as (c0 & Hc0 & _ & Hall).
  eexists; split; [reflexivity|]. cbn [c_level]. split; [exact (Hlvl Hm)|].
  cbn [heap_loggers]. apply Forall_lookup_2. intros i x Hi.
  rewrite list_lookup_insert in Hi.
  destruct (decide (length (heap_loggers st2) = i /\ _)) as [_|Hne].
  - injection Hi as <-. exact (Hlvl Hm).
  - assert (i < length (heap_loggers st2)) as Hlt.
    { pose proof (lookup_lt_Some _ _ _ Hi) as Hl. rewrite length_app in Hl. simpl in Hl.
      destruct (decide (i = length (heap_loggers st2))) as [->|]; [|lia].
      exfalso. apply Hne. split; [reflexivity|rewrite length_app; simpl; lia]. }
    rewrite lookup_app_l in Hi by exact Hlt.
    exact (proj1 (Forall_lookup _ _) Hall _ _ Hi).
Qed.

Lemma ad_get_or_create (st : State) (args : list string) (kwargs : list (string * string)) :
  auto_debug st -> auto_debug (get_or_create args kwargs st).1.
Proof.
  intros Had. destruct (ad_get_composer st Had) as [Had1 Hlvl].
  pose proof (_get_composer_registered st) as Hreg.
  unfold get_or_create.
  destruct (_get_composer st) as [st1 c]. cbn [fst snd] in Had1, Hlvl, Hreg.
  destruct (dict_get _ (loggers c)) as [[[l0 p0] g0]|] eqn:Hd; [exact Had1|].
  set (p := ("./logs/" ++ kw_get kwargs "file" "log.txt")%string).
  assert (Hch : exists st2 gid,
    match get_gateway_if_exists (loggers c) p with
    | Some g => (st1, g)
    | None => (set_heap_gateways st1 (heap_gateways st1 ++ [init_gateway p (now st1)]),
               length (heap_gateways st1))
    end = (st2, gid)
    /\ auto_debug st2 /\ composer_instance st2 = Some c
    /\ meta_instance st2 = meta_instance st1).
  { destruct (get_gateway_if_exists (loggers c) p) as [g|].
    - exists st1, g. split; [reflexivity|]. split; [exact Had1|]. split; [exact Hreg|reflexivity].
    - eexists _, _. split; [reflexivity|]. split; [exact Had1|]. split; [exact Hreg|reflexivity]. }
  destruct Hch as (st2 & gid & -> & Had2 & Hc2 & Hm2).
  destruct (bind_init args kwargs) as [[nm file]|]; [|exact Had2].
  cbv zeta. rewrite <- Hm2 in Hlvl.
  destruct (ad_register st2 c _ p gid (set_file_gateway (init_logger nm file) (Some gid))
              Had2 Hc2 Hlvl Hd) as (st4 & Hadd & Had4).
  rewrite Hadd. exact Had4.
Qed.

Lemma ad_exec_op (o : Op) (st : State) :
  auto_debug st -> auto_debug (exec_op o st).
Proof.
  intros Had. destruct o as [args kwargs|lid lv|lid lv m|nm| |s| |t]; cbn [exec_op].
  - apply ad_get_or_create. exact Had.
  - apply ad_heap_set_level. exact Had.
  - apply ad_heap_log. exact Had.
  - unfold remove_logger. destruct (composer_instance st) as [c|] eqn:Hc; [|exact Had].
    destruct (dict_get nm (loggers c)) as [x|]; [|exact Had]. cbn [default].
    destruct Had as [_ H2]. split; [discriminate|].
    intros Hm. destruct (H2 Hm) as (c0 & Hc0 & Hl & Hall).
    rewrite Hc in Hc0. injection Hc0 as <-.
    eexists; split; [reflexivity|]. split; [exact Hl|exact Hall].
  - destruct (ad_get_composer st Had) as [[_ H2] Hlvl].
    unfold _stop_all_sig. destruct (_get_composer st) as [st1 c]. cbn [fst snd] in H2, Hlvl.
    split; [discriminate|]. intros Hm. destruct (H2 Hm) as (c0 & _ & _ & Hall).
    eexists; split; [reflexivity|]. split; [exact (Hlvl Hm)|exact Hall].
  - unfold set_instance. destruct (composer_instance st) eqn:Hc; [exact Had|].
    destruct Had as [H1 _]. destruct (H1 Hc) as [_ Hm]. cbn [default].
    split; [discriminate|]. unfold put_composer. cbn [meta_instance]. rewrite Hm. discriminate.
  - unfold set_level_if_not_set. destruct (composer_instance st) as [c|]; [|exact Had].
    generalize st Had. clear st Had.
    induction (loggers c) as [|[n [[lid p] gid]] es IH]; intros st Had; [exact Had|].
    cbn [fold_left]. apply IH. apply ad_heap_set_level. exact Had.
  - exact Had.
Qed.

Lemma ad_exec_ops (os : list Op) (st : State) :
  auto_debug st -> auto_debug (exec_ops os st).
Proof.
  unfold exec_ops. revert st. induction os as [|o os IH]; intros st Had; [exact Had|].
  cbn [fold_left]. apply IH. apply ad_exec_op. exact Had.
Qed.

Lemma ad_init : auto_debug init_state.
Proof. split; [intros _; split; reflexivity|discriminate]. Qed.

(** C3: at every state reached from the initial one by any sequence of
    registry operations, registered entries with the same destination path
    name the same gateway, and each entry's logger points to that gateway;
    a get-or-create of a new name on a path already in use allocates no
    gateway and hands the new logger the existing one. *)
Theorem gateway_unique_per_path (os : list Op) :
  gateways_shared (exec_ops os init_state)
  /\ forall (args : list string) (kwargs : list (string * string)) (c : Composer)
            (n : string) (lid gid : nat),
     composer_instance (exec_ops os init_state) = Some c ->
     dict_get (kw_get kwargs "name" "default") (loggers c) = None ->
     (n, (lid, ("./logs/" ++ kw_get kwargs "file" "log.txt")%string, gid)) ∈ loggers c ->
     length (heap_gateways (get_or_create args kwargs (exec_ops os init_state)).1)
       = length (heap_gateways (exec_ops os init_state))
     /\ forall lid', (get_or_create args kwargs (exec_ops os init_state)).2 = Some lid' ->
        exists lo, heap_loggers (get_or_create args kwargs (exec_ops os init_state)).1 !! lid' = Some lo
                   /\ file_gateway lo = Some gid.
Proof.
  pose proof (gs_exec_ops os init_state gs_init) as Hgs.
  split; [exact Hgs|].
  intros args kwargs c n lid gid Hc Hd Hin.
  exact (get_or_create_reuses_gateway _ args kwargs c n lid gid Hgs Hc Hd Hin).
Qed.

(** C9: once the composer has been created by the metaclass (not set
    beforehand with set_instance), its level is DEBUG, every logger on the
    heap has threshold DEBUG (never NOTSET), and set_level on any logger
    leaves the whole state unchanged. *)
Theorem auto_composer_threshold_debug (os : list Op) :
  meta_instance (exec_ops os init_state) = true ->
  (exists c, composer_instance (exec_ops os init_state) = Some c /\ c_level c = DEBUG)
  /\ Forall (fun lo => level lo = DEBUG) (heap_loggers (exec_ops os init_state))
  /\ forall lid lv, heap_set_level (exec_ops os init_state) lid lv = exec_ops os init_state.
Proof.
  intros Hm. destruct (ad_exec_ops os init_state ad_init) as [_ H2].
  destruct (H2 Hm) as (c & Hc & Hl & Hall).
  split; [exists c; split; assumption|]. split; [exact Hall|].
  intros lid lv. unfold heap_set_level.
  destruct (heap_loggers (exec_ops os init_state) !! lid) as [lo|] eqn:E; [|reflexivity].
  rewrite set_level_keeps_debug by exact (proj1 (Forall_lookup _ _) Hall _ _ E).
  rewrite list_insert_id by exact E.
  destruct (exec_ops os init_state); reflexivity.
Qed.

Lemma auto_composer_threshold_debug_witness :
  meta_instance (exec_ops [OGetOrCreate ["PostgreSQL"; "network.log"] []] init_state) = true
  /\ heap_set_level (exec_ops [OGetOrCreate ["PostgreSQL"; "network.log"] []] init_state) 0 ERROR
     = exec_ops [OGetOrCreate ["PostgreSQL"; "network.log"] []] init_state.
Proof.
  assert (Hm : meta_instance (exec_ops [OGetOrCreate ["PostgreSQL"; "network.log"] []] init_state) = true)
    by (vm_compute; reflexivity).
  split; [exact Hm|].
  exact (proj2 (proj2 (auto_composer_threshold_debug _ Hm)) 0 ERROR).
Defined.
End RegistryInvariants.

(* ------------------------------------------------------------------ *)
(** ** Formatting and parsing of integers, segment paths *)

Module FormatFacts.
Import Gateway GatewayIO.

Lemma str_app_assoc (a b c : string) :
  (a ++ b ++ c)%string = ((a ++ b) ++ c)%string.
Proof.
  induction a as [|x a IH]; [reflexivity|].
  change (String x (a ++ b ++ c) = String x ((a ++ b) ++ c))%string. rewrite IH. reflexivity.
Qed.

Lemma str_app_nil_r (a : string) : (a ++ "")%string = a.
Proof.
  induction a as [|x a IH]; [reflexivity|].
  change (String x (a ++ "") = String x a)%string. rewrite IH. reflexivity.
Qed.

Lemma str_length_app (a b : string) :
  String.length (a ++ b) = String.length a + String.length b.
Proof.
  induction a as [|x a IH]; [reflexivity|].
  change (S (String.length (a ++ b)) = S (String.length a + String.length b)). rewrite IH. reflexivity.
Qed.

Lemma list_ascii_of_string_app (a b : string) :
  list_ascii_of_string (a ++ b) = list_ascii_of_string a ++ list_ascii_of_string b.
Proof.
  induction a as [|x a IH]; [reflexivity|].
  change (x :: list_ascii_of_string (a ++ b) = x :: (list_ascii_of_string a ++ list_ascii_of_string b)).
  rewrite IH. reflexivity.
Qed.

Lemma str_app_inv_l (s a b : string) : (s ++ a)%string = (s ++ b)%string -> a = b.
Proof. induction s as [|x s IH]; [tauto|]. intros H. injection H as H. exact (IH H). Qed.

Lemma str_app_inv_r (a b t : string) : (a ++ t)%string = (b ++ t)%string -> a = b.
Proof.
  intros H. apply (f_equal list_ascii_of_string) in H.
  rewrite !list_ascii_of_string_app in H. apply app_inv_tail in H.
  rewrite <- (string_of_list_ascii_of_string a), <- (string_of_list_ascii_of_string b).
  rewrite H. reflexivity.
Qed.

Lemma digit_char_nat (d : Z) :
  (0 <= d < 10)%Z -> nat_of_ascii (digit_char d) = 48 + Z.to_nat d.
Proof. intros Hd. unfold digit_char. apply nat_ascii_embedding. lia. Qed.

(** One decimal digit read by [int()]. *)
Lemma digits_aux_digit (d : Z) (rest : string) (acc : Z) (b : bool) :
  (0 <= d < 10)%Z ->
  digits_aux (String (digit_char d) rest) acc b = digits_aux rest (acc * 10 + d)%Z true.
Proof.
  intros Hd. cbn [digits_aux]. rewrite (digit_char_nat d Hd).
  replace ((48 <=? 48 + Z.to_nat d) && (48 + Z.to_nat d <=? 57)) with true.
  - f_equal. lia.
  - symmetry. apply andb_true_intro. split; apply Nat.leb_le; lia.
Qed.

Lemma dstr_S (f : nat) (n : Z) :
  dstr (S f) n = if Z.ltb n 10 then String (digit_char n) EmptyString
                 else (dstr f (n / 10) ++ String (digit_char (n mod 10)) EmptyString)%string.
Proof. reflexivity. Qed.

Lemma dstr_digits (f : nat) (n : Z) (rest : string) (b : bool) :
  (0 <= n < 2 ^ Z.of_nat (S f))%Z ->
  digits_aux (dstr (S f) n ++ rest) 0 b = digits_aux rest n true.
Proof.
  revert n rest b. induction f as [|f IH]; intros n rest b Hn.
  - assert (n < 10)%Z as Hlt by (simpl in Hn; lia).
    rewrite dstr_S. rewrite (proj2 (Z.ltb_lt n 10) Hlt).
    change ((String (digit_char n) "" ++ rest)%string) with (String (digit_char n) rest).
    rewrite digits_aux_digit by lia. reflexivity.
  - rewrite dstr_S. destruct (Z.ltb_spec n 10) as [Hlt|Hge].
    + change ((String (digit_char n) "" ++ rest)%string) with (String (digit_char n) rest).
      rewrite digits_aux_digit by lia. reflexivity.
    + rewrite <- str_app_assoc.
      change ((String (digit_char (n mod 10)) "" ++ rest)%string)
        with (String (digit_char (n mod 10)) rest).
      rewrite IH.
      * rewrite digits_aux_digit by (pose proof (Z.mod_pos_bound n 10); lia).
        f_equal. pose proof (Z.div_mod n 10). lia.
      * split; [apply Z.div_pos; lia|].
        rewrite Nat2Z.inj_succ, Z.pow_succ_r in Hn by lia.
        apply Z.div_lt_upper_bound; lia.
Qed.

Lemma dstr_head (f : nat) (n : Z) :
  (0 <= n)%Z -> exists (d : Z) (r : string), (0 <= d < 10)%Z /\ dstr (S f) n = String (digit_char d) r.
Proof.
  revert n. induction f as [|f IH]; intros n Hn; rewrite dstr_S.
  - destruct (Z.ltb_spec n 10).
    + exists n, EmptyString. split; [lia|reflexivity].
    + exists (n mod 10)%Z, EmptyString. split; [apply Z.mod_pos_bound; lia|reflexivity].
  - destruct (Z.ltb_spec n 10).
    + exists n, EmptyString. split; [lia|reflexivity].
    + destruct (IH (n / 10)%Z) as (d & r & Hd & ->); [apply Z.div_pos; lia|].
      exists d. eexists. split; [exact Hd|reflexivity].
Qed.

Lemma str_nonneg_bound (n : Z) :
  (0 <= n)%Z -> (n < 2 ^ Z.of_nat (S (Z.to_nat (Z.log2 n))))%Z.
Proof.
  intros Hn. destruct (Z.eq_dec n 0%Z) as [->|Hne]; [simpl; lia|].
  pose proof (Z.log2_spec n) as [_ H]; [lia|].
  pose proof (Z.log2_nonneg n).
  rewrite Nat2Z.inj_succ, Z2Nat.id by lia. exact H.
Qed.

Lemma digits_str_nonneg (n : Z) :
  (0 <= n)%Z -> digits_aux (str_nonneg n) 0 false = Some n.
Proof.
  intros Hn. unfold str_nonneg. rewrite <- (str_app_nil_r (dstr _ n)).
  rewrite dstr_digits by (split; [lia|apply str_nonneg_bound; lia]). reflexivity.
Qed.

Lemma int_body_py_str_int (z : Z) : int_body (py_str_int z) = Some z.
Proof.
  unfold py_str_int. destruct (Z.ltb_spec z 0) as [Hlt|Hge].
  - cbn [int_body]. rewrite digits_str_nonneg by lia. simpl. f_equal. lia.
  - pose proof (digits_str_nonneg z Hge) as H. unfold str_nonneg in *.
    destruct (dstr_head (Z.to_nat (Z.log2 z)) z Hge) as (d & r & Hd & E).
    rewrite E in *. rewrite <- H.
    assert (d = 0 \/ d = 1 \/ d = 2 \/ d = 3 \/ d = 4 \/ d = 5 \/ d = 6 \/ d = 7
            \/ d = 8 \/ d = 9)%Z as Hcases by lia.
    repeat destruct Hcases as [->|Hcases]; try (subst d); reflexivity.
Qed.

Lemma py_str_int_inj (a b : Z) : py_str_int a = py_str_int b -> a = b.
Proof.
  intros H. apply (f_equal int_body) in H. rewrite !int_body_py_str_int in H.
  injection H as H. exact H.
Qed.












(** X8: the segment file [_stream_process] writes to is determined by the
    gateway's start stamp: after [_rotate_file] sets the stamp to [now], the
    path is the old one exactly when [now] equals the old stamp, so a
    rotation within the same second appends to the same file. *)
Theorem segment_path_same_iff_same_stamp (g : FileGateway) (now : Z) :
  log_file_path (restamp g now) = log_file_path g <-> now = start_stamp g.
Proof.
  unfold log_file_path, restamp. cbn [file_loc start_stamp]. split.
  - intros H. apply str_app_inv_l, (str_app_inv_l "_") in H.
    apply str_app_inv_r in H. exact (py_str_int_inj _ _ H).
  - intros ->. reflexivity.
Qed.
End FormatFacts.

(* ------------------------------------------------------------------ *)
(** ** The gateway's writer task and its rotation *)

Module WriterFacts.
Import Gateway GatewayIO FormatFacts.

Lemma writer_loop_cons (g : FileGateway) (clk : nat -> Z) (k : nat) (file : string)
  (x : option string) (rest : list (option string)) (errs : nat) :
  gw_logging g = true ->
  writer_loop g clk k file (x :: rest) errs
  = match x with
    | None => mkRun file rest errs WSentinel
    | Some msg =>
        match rotate_if_needed g (Some (clk k)) (Some (Z.of_nat (String.length (file ++ msg ++ nl)))) with
        | Some true => mkRun (file ++ msg ++ nl) rest errs WRotate
        | Some false => writer_loop g clk (S k) (file ++ msg ++ nl) rest errs
        | None => writer_loop g clk (S k) (file ++ msg ++ nl) rest (S errs)
        end
    end.
Proof. intros H. cbn [writer_loop]. rewrite H. reflexivity. Qed.

Lemma writer_loop_nil (g : FileGateway) (clk : nat -> Z) (k : nat) (file : string) (errs : nat) :
  gw_logging g = true -> writer_loop g clk k file [] errs = mkRun file [] errs WSuspended.
Proof. intros H. cbn [writer_loop]. rewrite H. reflexivity. Qed.

Lemma written_length_mono (ms : list string) (file : string) :
  String.length file <= String.length (fold_left (fun acc m => acc ++ m ++ nl)%string ms file).
Proof.
  revert file. induction ms as [|m ms IH]; intros file; [simpl; lia|].
  cbn [fold_left]. etransitivity; [|apply IH]. rewrite str_length_app. lia.
Qed.

Lemma rotate_misconfigured (g : FileGateway) (t s : Z) :
  rot_type g <> NONE -> rot_amt g = PNone -> rotate_if_needed g (Some t) (Some s) = None.
Proof.
  intros Hrt Ham. unfold rotate_if_needed. rewrite Ham.
  destruct (rot_type g); [contradiction|reflexivity|reflexivity|reflexivity].
Qed.

Lemma rotate_size (g : FileGateway) (n t s : Z) :
  rot_type g = SIZE -> rot_amt g = PInt n ->
  rotate_if_needed g (Some t) (Some s) = Some (Z.geb s n).
Proof.
  intros Hrt Ham. unfold rotate_if_needed. rewrite Hrt, Ham. cbn -[Z.geb].
  destruct (Z.geb s n); reflexivity.
Qed.

Lemma rotate_none (g : FileGateway) (t s : option Z) :
  rot_type g = NONE -> rotate_if_needed g t s = Some false.
Proof. intros Hrt. unfold rotate_if_needed. rewrite Hrt. reflexivity. Qed.

(** What a [set_file_rotation] that raised leaves on a fresh gateway. *)
Lemma failed_config_shape (loc : string) (now : Z) (rt : RotType) (amt : string) (g : FileGateway) :
  set_file_rotation (init_gateway loc now) rt amt = (g, true) ->
  g = set_rot (init_gateway loc now) rt PNone /\ rt <> NONE.
Proof.
  unfold set_file_rotation. cbn [rot_type init_gateway].
  destruct (decide (NONE <> NONE)) as [n|_]; [exfalso; apply n; reflexivity|].
  cbn [rot_amt init_gateway].
  intros H. repeat case_match; simplify_eq; split; try reflexivity; discriminate.
Qed.

Lemma writer_misconfigured (g : FileGateway) (clk : nat -> Z) (ms : list string) :
  gw_logging g = true -> rot_type g <> NONE -> rot_amt g = PNone ->
  forall k file errs,
  writer_loop g clk k file (map Some ms) errs
  = mkRun (fold_left (fun acc m => acc ++ m ++ nl)%string ms file) [] (errs + length ms) WSuspended.
Proof.
  intros Hlog Hrt Ham. induction ms as [|m ms IH]; intros k file errs.
  - rewrite writer_loop_nil by exact Hlog. cbn. rewrite Nat.add_0_r. reflexivity.
  - cbn [map]. rewrite writer_loop_cons by exact Hlog.
    rewrite rotate_misconfigured by assumption. rewrite IH. cbn [fold_left length].
    f_equal. lia.
Qed.

Lemma filter_keep_all (l : list nat) (x : nat) :
  x ∉ l -> filter (fun y => y <> x /\ y <> x) l = l.
Proof.
  induction l as [|y l IH]; intros Hn; [reflexivity|].
  rewrite filter_cons_True.
  - f_equal. apply IH. intros Hin. apply Hn. right. exact Hin.
  - split; intros ->; apply Hn; left.
Qed.

Lemma remove_one_length (l : list nat) (x : nat) :
  NoDup l -> x ∈ l -> length (filter (fun y => y <> x /\ y <> x) l) = length l - 1.
Proof.
  induction l as [|y l IH]; intros Hnd Hin; [inversion Hin|].
  apply NoDup_cons in Hnd as [Hy Hnd]. rewrite filter_cons.
  destruct (decide (y = x)) as [->|Hne].
  - rewrite decide_False by tauto.
    rewrite filter_keep_all by exact Hy. simpl. lia.
  - rewrite decide_True by tauto. cbn [length].
    apply elem_of_cons in Hin as [->|Hin]; [contradiction|].
    rewrite IH by assumption. destruct l; [inversion Hin|]. simpl. lia.
Qed.

(** X3: once a [set_file_rotation(rt, amt)] call has raised on a fresh
    gateway (an amount [int()] cannot parse, not two words, no single [|]),
    [_rot_type] is [rt] but [_rot_amt] stays [None]: every later
    [set_file_rotation] call is ignored, and [rotate_if_needed(t, s)] raises
    [TypeError] for every time and size. *)
Theorem failed_rotation_config_locks (loc : string) (now : Z) (rt : RotType) (amt : string)
  (g : FileGateway) :
  set_file_rotation (init_gateway loc now) rt amt = (g, true) ->
  rot_type g = rt /\ rt <> NONE /\ rot_amt g = PNone
  /\ (forall rt' amt', set_file_rotation g rt' amt' = (g, false))
  /\ (forall t s, rotate_if_needed g (Some t) (Some s) = None).
Proof.
  intros H. destruct (failed_config_shape loc now rt amt g H) as [-> Hrt].
  split; [reflexivity|]. split; [exact Hrt|]. split; [reflexivity|]. split.
  - intros rt' amt'. unfold set_file_rotation. cbn [rot_type set_rot].
    destruct (decide (rt <> NONE)) as [_|n]; [reflexivity|contradiction].
  - intros t s. apply rotate_misconfigured; [exact Hrt|reflexivity].
Qed.

Lemma failed_rotation_config_locks_witness :
  set_file_rotation (init_gateway "./logs/log.txt" 0) SIZE "ten kb"
    = (set_rot (init_gateway "./logs/log.txt" 0) SIZE PNone, true)
  /\ rotate_if_needed (set_rot (init_gateway "./logs/log.txt" 0) SIZE PNone) (Some 5%Z) (Some 100%Z)
     = None.
Proof.
  assert (H : set_file_rotation (init_gateway "./logs/log.txt" 0) SIZE "ten kb"
              = (set_rot (init_gateway "./logs/log.txt" 0) SIZE PNone, true))
    by (vm_compute; reflexivity).
  split; [exact H|].
  exact (proj2 (proj2 (proj2 (proj2 (failed_rotation_config_locks _ _ _ _ _ H)))) 5%Z 100%Z).
Defined.

(** X4: on a gateway whose [set_file_rotation] raised, the writer task still
    writes every message (after the session header, each followed by a
    newline, in order), but the rotation check after each write raises
    [TypeError], which the loop's [except Exception] reports: one
    [aprint_err] line per message, and the file never rotates. *)
Theorem failed_rotation_config_writer (loc : string) (now : Z) (rt : RotType) (amt : string)
  (g : FileGateway) :
  set_file_rotation (init_gateway loc now) rt amt = (g, true) ->
  forall (clk : nat -> Z) (existing : string) (ms : list string),
  _stream_process g clk existing (map Some ms)
  = mkRun (fold_left (fun acc m => acc ++ m ++ nl)%string ms (existing ++ session_header (clk O))%string)
          [] (length ms) WSuspended.
Proof.
  intros H clk existing ms. destruct (failed_config_shape loc now rt amt g H) as [-> Hrt].
  unfold _stream_process. apply writer_misconfigured; [reflexivity|exact Hrt|reflexivity].
Qed.

Lemma failed_rotation_config_writer_witness :
  set_file_rotation (init_gateway "./logs/log.txt" 0) TIME_SIZE "1 h"
    = (set_rot (init_gateway "./logs/log.txt" 0) TIME_SIZE PNone, true)
  /\ wr_errors (_stream_process (set_rot (init_gateway "./logs/log.txt" 0) TIME_SIZE PNone)
                  (fun _ => 0%Z) "" (map Some ["a"; "b"])) = 2.
Proof.
  assert (H : set_file_rotation (init_gateway "./logs/log.txt" 0) TIME_SIZE "1 h"
              = (set_rot (init_gateway "./logs/log.txt" 0) TIME_SIZE PNone, true))
    by (vm_compute; reflexivity).
  split; [exact H|].
  rewrite (failed_rotation_config_writer _ _ _ _ _ H). reflexivity.
Defined.

(** X5: with no rotation configured, the writer task writes the session
    header and then the messages before the first [None] sentinel, in
    order, each followed by a newline, and leaves its loop at the sentinel;
    the items queued behind the sentinel are left in the stream unwritten. *)
Theorem writer_stops_at_sentinel (g : FileGateway) (clk : nat -> Z) (existing : string)
  (ms : list string) (rest : list (option string)) :
  gw_logging g = true -> rot_type g = NONE ->
  _stream_process g clk existing (map Some ms ++ None :: rest)
  = mkRun (fold_left (fun acc m => acc ++ m ++ nl)%string ms (existing ++ session_header (clk O))%string)
          rest 0 WSentinel.
Proof.
  intros Hlog Hrt. unfold _stream_process.
  generalize (existing ++ session_header (clk O))%string as file. generalize 1 as k.
  induction ms as [|m ms IH]; intros k file.
  - cbn [map app]. rewrite writer_loop_cons by exact Hlog. reflexivity.
  - cbn [map app]. rewrite writer_loop_cons by exact Hlog.
    rewrite rotate_none by exact Hrt. apply IH.
Qed.

Lemma writer_stops_at_sentinel_witness :
  (gw_logging (init_gateway "./logs/log.txt" 0) = true
   /\ rot_type (init_gateway "./logs/log.txt" 0) = NONE)
  /\ wr_stream (_stream_process (init_gateway "./logs/log.txt" 0) (fun _ => 0%Z) ""
                  (map Some ["a"] ++ None :: [Some "b"])) = [Some "b"].
Proof.
  split; [split; reflexivity|].
  rewrite (writer_stops_at_sentinel _ _ _ ["a"] [Some "b"]) by reflexivity. reflexivity.
Defined.

(** X6: with [SIZE] rotation at [n] bytes, the writer task rotates right
    after the first message whose write brings the file to at least [n]
    bytes, leaving the later messages in the stream; when the file stays
    below [n] bytes it writes every message and keeps waiting. *)
Theorem writer_size_rotation (g : FileGateway) (clk : nat -> Z) (n : Z) :
  gw_logging g = true -> rot_type g = SIZE -> rot_amt g = PInt n ->
  (forall ms k file errs,
     (Z.of_nat (String.length (fold_left (fun acc m => acc ++ m ++ nl)%string ms file)) < n)%Z ->
     writer_loop g clk k file (map Some ms) errs
     = mkRun (fold_left (fun acc m => acc ++ m ++ nl)%string ms file) [] errs WSuspended)
  /\ (forall ms1 m ms2 k file errs,
     (Z.of_nat (String.length (fold_left (fun acc m => acc ++ m ++ nl)%string ms1 file)) < n)%Z ->
     (n <= Z.of_nat (String.length (fold_left (fun acc m => acc ++ m ++ nl)%string (ms1 ++ [m]) file)))%Z ->
     writer_loop g clk k file (map Some (ms1 ++ m :: ms2)) errs
     = mkRun (fold_left (fun acc m => acc ++ m ++ nl)%string (ms1 ++ [m]) file)
             (map Some ms2) errs WRotate).
Proof.
  intros Hlog Hrt Ham. split.
  - induction ms as [|m ms IH]; intros k file errs Hlt.
    + apply writer_loop_nil. exact Hlog.
    + cbn [map]. rewrite writer_loop_cons by exact Hlog.
      rewrite (rotate_size g n) by assumption.
      cbn [fold_left] in Hlt |- *.
      pose proof (written_length_mono ms (file ++ m ++ nl)%string).
      destruct (Z.geb_spec (Z.of_nat (String.length (file ++ m ++ nl))) n); [lia|].
      apply IH. exact Hlt.
  - induction ms1 as [|m1 ms1 IH]; intros m ms2 k file errs Hlt Hge.
    + cbn [map app fold_left] in Hge |- *. rewrite writer_loop_cons by exact Hlog.
      rewrite (rotate_size g n) by assumption.
      destruct (Z.geb_spec (Z.of_nat (String.length (file ++ m ++ nl))) n); [reflexivity|lia].
    + cbn [map app]. rewrite writer_loop_cons by exact Hlog.
      rewrite (rotate_size g n) by assumption.
      cbn [fold_left app] in Hlt, Hge |- *.
      pose proof (written_length_mono ms1 (file ++ m1 ++ nl)%string).
      destruct (Z.geb_spec (Z.of_nat (String.length (file ++ m1 ++ nl))) n); [lia|].
      apply IH; assumption.
Qed.

Lemma writer_size_rotation_witness :
  (gw_logging (set_rot (init_gateway "./logs/log.txt" 0) SIZE (PInt 4)) = true
   /\ rot_type (set_rot (init_gateway "./logs/log.txt" 0) SIZE (PInt 4)) = SIZE
   /\ rot_amt (set_rot (init_gateway "./logs/log.txt" 0) SIZE (PInt 4)) = PInt 4)
  /\ writer_loop (set_rot (init_gateway "./logs/log.txt" 0) SIZE (PInt 4)) (fun _ => 0%Z) 1 ""
       (map Some (["a"] ++ "bc" :: ["d"])) 0
     = mkRun (fold_left (fun acc m => acc ++ m ++ nl)%string (["a"] ++ ["bc"]) "")
             (map Some ["d"]) 0 WRotate.
Proof.
  split; [split; [reflexivity|split; reflexivity]|].
  apply (proj2 (writer_size_rotation (set_rot (init_gateway "./logs/log.txt" 0) SIZE (PInt 4))
                  (fun _ => 0%Z) 4 eq_refl eq_refl eq_refl) ["a"] "bc" ["d"] 1 "" 0);
    vm_compute; congruence.
Defined.

(** X7: for a rotation setting [set_file_rotation] can produce, the check
    is monotone: if [rotate_if_needed(t, s)] is true, it is true for any
    later time and any larger size. *)
Theorem rotate_if_needed_monotone (g : FileGateway) (t s t' s' : Z) :
  config_ok g -> rotate_if_needed g (Some t) (Some s) = Some true ->
  (t <= t')%Z -> (s <= s')%Z -> rotate_if_needed g (Some t') (Some s') = Some true.
Proof.
  unfold config_ok, rotate_if_needed.
  destruct (rot_type g); destruct (rot_amt g) as [|a|a b]; intros Hok H Ht Hs; try contradiction;
    cbn -[Z.geb Z.gtb] in H |- *; try discriminate;
    repeat match goal with
           | |- context [Z.geb ?x ?y] => destruct (Z.geb_spec x y)
           | |- context [Z.gtb ?x ?y] => destruct (Z.gtb_spec x y)
           | H : context [Z.geb ?x ?y] |- _ => destruct (Z.geb_spec x y)
           | H : context [Z.gtb ?x ?y] |- _ => destruct (Z.gtb_spec x y)
           end; try reflexivity; try discriminate; lia.
Qed.

Lemma rotate_if_needed_monotone_witness :
  config_ok (set_rot (init_gateway "./logs/log.txt" 0) SIZE (PInt 10))
  /\ rotate_if_needed (set_rot (init_gateway "./logs/log.txt" 0) SIZE (PInt 10)) (Some 1%Z) (Some 12%Z) = Some true
  /\ rotate_if_needed (set_rot (init_gateway "./logs/log.txt" 0) SIZE (PInt 10)) (Some 2%Z) (Some 20%Z) = Some true.
Proof.
  assert (Hok : config_ok (set_rot (init_gateway "./logs/log.txt" 0) SIZE (PInt 10))) by exact I.
  assert (H : rotate_if_needed (set_rot (init_gateway "./logs/log.txt" 0) SIZE (PInt 10))
                (Some 1%Z) (Some 12%Z) = Some true) by reflexivity.
  split; [exact Hok|]. split; [exact H|].
  apply (rotate_if_needed_monotone _ 1 12 2 20 Hok H); lia.
Defined.

(** X9: when the writer task that [_processing_task] refers to rotates,
    [_rotate_file] leaves one more writer task running than before: the
    rotating task ends and two new [_stream_process] tasks start, both on the
    same stream, and [_processing_task] refers only to the second one. *)
Theorem rotate_file_adds_writer (ts : GwTasks) (me : nat) :
  handle ts = Some me -> me ∈ live ts -> NoDup (live ts) ->
  (forall x, x ∈ live ts -> x < next_task ts) ->
  exists ts', _rotate_file me ts = Some ts'
    /\ length (live ts') = S (length (live ts))
    /\ handle ts' = Some (S (next_task ts))
    /\ next_task ts ∈ live ts' /\ S (next_task ts) ∈ live ts'
    /\ NoDup (live ts').
Proof.
  intros Hh Hin Hnd Hlt. unfold _rotate_file. rewrite Hh.
  eexists; split; [reflexivity|]. cbn [live handle].
  split; [|split; [reflexivity|split; [|split]]].
  - rewrite length_app, remove_one_length by assumption. cbn [length].
    destruct (live ts); [inversion Hin|]. simpl. lia.
  - apply elem_of_app. right. left.
  - apply elem_of_app. right. right. left.
  - apply NoDup_app. split; [apply NoDup_filter; exact Hnd|]. split.
    + intros x Hx. apply list_elem_of_filter in Hx as [_ Hx]. specialize (Hlt x Hx).
      intros Hx'. apply elem_of_cons in Hx' as [->|Hx']; [lia|].
      apply list_elem_of_singleton in Hx'. lia.
    + apply NoDup_cons. split; [|apply NoDup_singleton].
      intros Hx. apply list_elem_of_singleton in Hx. lia.
Qed.

Lemma rotate_file_adds_writer_witness :
  (handle (start_tasks (mkTasks None [] 0)) = Some 0
   /\ 0 ∈ live (start_tasks (mkTasks None [] 0))
   /\ NoDup (live (start_tasks (mkTasks None [] 0))))
  /\ _rotate_file 0 (start_tasks (mkTasks None [] 0)) = Some (mkTasks (Some 2) [1; 2] 3).
Proof.
  assert (Hh : handle (start_tasks (mkTasks None [] 0)) = Some 0) by reflexivity.
  assert (Hin : 0 ∈ live (start_tasks (mkTasks None [] 0))) by (left).
  assert (Hnd : NoDup (live (start_tasks (mkTasks None [] 0)))) by apply NoDup_singleton.
  assert (Hlt : forall x, x ∈ live (start_tasks (mkTasks None [] 0)) ->
                  x < next_task (start_tasks (mkTasks None [] 0))).
  { intros x Hx. apply list_elem_of_singleton in Hx. subst x. cbn. lia. }
  split; [split; [exact Hh|split; [exact Hin|exact Hnd]]|].
  destruct (rotate_file_adds_writer _ 0 Hh Hin Hnd Hlt) as (ts' & E & _). rewrite E.
  revert E. vm_compute. intros E. injection E as <-. reflexivity.
Defined.
End WriterFacts.

(* ------------------------------------------------------------------ *)
(** ** The registry beyond get-or-create: removal, shutdown, levels *)

Module RegistryExtra.
Import LoggerRt Gateway Registry Invariants RegistryFacts RegistryInvariants RegistryQuery.

(** *** Dictionary deletion *)

Lemma dict_get_del_same {V} (nm : string) (d : list (string * V)) :
  dict_get nm (dict_del nm d) = None.
Proof.
  unfold dict_del. induction d as [|[k v] d IH]; [reflexivity|].
  rewrite filter_cons. cbn [fst].
  destruct (String.eqb nm k) eqn:E; cbn [negb].
  - rewrite decide_False by (intros H; exact H). exact IH.
  - rewrite decide_True by exact I. cbn [dict_get]. rewrite E. exact IH.
Qed.

Lemma dict_get_del_other {V} (nm nm' : string) (d : list (string * V)) :
  nm' <> nm -> dict_get nm' (dict_del nm d) = dict_get nm' d.
Proof.
  intros Hne. unfold dict_del. induction d as [|[k v] d IH]; [reflexivity|].
  rewrite filter_cons. cbn [fst].
  destruct (String.eqb nm k) eqn:E; cbn [negb].
  - rewrite decide_False by (intros H; exact H). rewrite IH.
    apply String.eqb_eq in E as <-. cbn [dict_get].
    destruct (String.eqb_spec nm' nm); [contradiction|reflexivity].
  - rewrite decide_True by exact I. cbn [dict_get]. rewrite IH. reflexivity.
Qed.

Lemma dict_del_elem {V} (nm n : string) (v : V) (d : list (string * V)) :
  (n, v) ∈ dict_del nm d -> (n, v) ∈ d /\ n <> nm.
Proof.
  unfold dict_del. intros Hin. apply list_elem_of_filter in Hin as [Hp Hin].
  split; [exact Hin|]. intros ->. cbn [fst] in Hp. rewrite String.eqb_refl in Hp. exact Hp.
Qed.

(** *** The heap projections of the operations *)

Lemma _get_composer_heaps (st : State) :
  heap_loggers (_get_composer st).1 = heap_loggers st
  /\ heap_gateways (_get_composer st).1 = heap_gateways st.
Proof. unfold _get_composer. destruct (composer_instance st); split; reflexivity. Qed.

(** A get-or-create of a name that is not registered, on a path no entry
    uses, allocates a new logger and a new gateway, puts the composer's
    level on the logger, and leaves the older loggers where they are. *)
Lemma get_or_create_fresh_path (st : State) (c : Composer) (args : list string)
  (kwargs : list (string * string)) (st' : State) (lid : nat) :
  composer_instance st = Some c ->
  dict_get (kw_get kwargs "name" "default") (loggers c) = None ->
  get_gateway_if_exists (loggers c) ("./logs/" ++ kw_get kwargs "file" "log.txt")%string = None ->
  get_or_create args kwargs st = (st', Some lid) ->
  lid = length (heap_loggers st)
  /\ length (heap_gateways st') = S (length (heap_gateways st))
  /\ (forall i lo, heap_loggers st !! i = Some lo -> heap_loggers st' !! i = Some lo)
  /\ exists lo, heap_loggers st' !! lid = Some lo
       /\ file_gateway lo = Some (length (heap_gateways st)) /\ level lo = c_level c.
Proof.
  intros Hc Hd Hgw. unfold get_or_create, _get_composer. rewrite Hc. cbn [fst snd].
  rewrite Hd, Hgw.
  destruct (bind_init args kwargs) as [[nm file]|]; [|discriminate]. cbv zeta.
  unfold add_logger. rewrite Hd.
  cbn [heap_loggers heap_gateways set_heap_loggers set_heap_gateways].
  rewrite list_lookup_middle by reflexivity. rewrite list_lookup_middle by reflexivity.
  intros [= <- <-]. cbn [heap_loggers heap_gateways].
  split; [reflexivity|]. split; [rewrite length_insert, length_app; simpl; lia|]. split.
  - intros i lo Hi. pose proof (lookup_lt_Some _ _ _ Hi).
    rewrite list_lookup_insert_ne by lia. apply lookup_app_l_Some. exact Hi.
  - eexists; split; [apply list_lookup_insert_eq; rewrite length_app; simpl; lia|].
    split; reflexivity.
Qed.

(** [exec_op] never takes the composer away. *)
Lemma composer_kept (o : Op) (st : State) (c : Composer) :
  composer_instance st = Some c -> exists c', composer_instance (exec_op o st) = Some c'.
Proof.
  intros Hc. destruct o as [args kwargs|lid lv|lid lv m|nm| |s| |t]; cbn [exec_op].
  - unfold get_or_create. pose proof (_get_composer_registered st) as Hreg.
    destruct (_get_composer st) as [st1 c1]. cbn [fst snd] in Hreg.
    destruct (dict_get _ (loggers c1)) as [[[l0 p0] g0]|]; [eauto|].
    destruct (get_gateway_if_exists _ _);
      (destruct (bind_init args kwargs) as [[nm file]|]; [|cbn; eauto]);
      cbv zeta; unfold add_logger; destruct (dict_get _ _); cbn; eauto.
  - unfold heap_set_level. destruct (_ !! _); cbn; eauto.
  - unfold heap_log. destruct (_ !! _); cbn; eauto.
  - unfold remove_logger. rewrite Hc. destruct (dict_get _ _); cbn; eauto.
  - unfold _stop_all_sig. destruct (_get_composer st) as [st1 c1]. cbn. eauto.
  - unfold set_instance. rewrite Hc. cbn. eauto.
  - unfold set_level_if_not_set. rewrite Hc.
    generalize st Hc. clear st Hc.
    induction (loggers c) as [|[n [[lid p] gid]] es IH]; intros st Hc; [eauto|].
    cbn [fold_left]. apply IH. unfold heap_set_level. destruct (_ !! _); exact Hc.
  - cbn. eauto.
Qed.

Lemma composer_kept_ops (os : list Op) (st : State) (c : Composer) :
  composer_instance st = Some c -> exists c', composer_instance (exec_ops os st) = Some c'.
Proof.
  unfold exec_ops. revert st c. induction os as [|o os IH]; intros st c Hc; [eauto|].
  cbn [fold_left]. destruct (composer_kept o st c Hc) as [c' Hc']. exact (IH _ _ Hc').
Qed.

(** *** Started gateways *)

Lemma gst_transfer (st st' : State) :
  gateways_started st -> composer_instance st' = composer_instance st ->
  (forall i g, heap_gateways st !! i = Some g -> heap_gateways st' !! i = Some g) ->
  gateways_started st'.
Proof.
  intros H Hc Hh c Hc' n lid p gid Hin. rewrite Hc in Hc'.
  destruct (H c Hc' n lid p gid Hin) as (g & Hg & Hp). exists g. split; [apply Hh, Hg|exact Hp].
Qed.

Lemma gst_empty (st : State) (c : Composer) :
  composer_instance st = Some c -> loggers c = [] -> gateways_started st.
Proof.
  intros Hc Hl c' Hc'. rewrite Hc in Hc'. injection Hc' as <-. rewrite Hl.
  intros n lid p gid Hin. inversion Hin.
Qed.

Lemma gst_heap_update (st : State) (lid : nat) (f : Logger -> Logger) :
  gateways_started st -> gateways_started (heap_update st lid f).
Proof.
  intros H. unfold heap_update. destruct (_ !! _); [|exact H].
  apply (gst_transfer st); [exact H|reflexivity|tauto].
Qed.

Lemma start_started (g : FileGateway) : processing_task (start g) = true.
Proof. unfold start. destruct (processing_task g) eqn:E; [exact E|reflexivity]. Qed.

Lemma gst_register (st2 : State) (c : Composer) (nm p : string) (gid : nat) (lo : Logger)
  (g : FileGateway) :
  gateways_started st2 -> composer_instance st2 = Some c ->
  dict_get nm (loggers c) = None -> heap_gateways st2 !! gid = Some g ->
  exists st4, add_logger (set_heap_loggers st2 (heap_loggers st2 ++ [lo])) c nm
                (length (heap_loggers st2)) p gid = Some st4
              /\ gateways_started st4.
Proof.
  intros H Hc Hd Hg. unfold add_logger. rewrite Hd.
  eexists; split; [reflexivity|]. cbn [heap_gateways set_heap_loggers]. rewrite Hg.
  intros c' Hc'. injection Hc' as <-. cbn [loggers heap_gateways].
  intros n lid p' gid' Hin.
  destruct (decide (gid' = gid)) as [->|Hne].
  - exists (start g). split; [|apply start_started].
    apply list_lookup_insert_eq. exact (lookup_lt_Some _ _ _ Hg).
  - rewrite list_lookup_insert_ne by congruence.
    apply elem_of_app in Hin as [Hin|Hin].
    + exact (H c Hc _ _ _ _ Hin).
    + apply list_elem_of_singleton in Hin. injection Hin as _ _ _ ->. contradiction.
Qed.

Lemma gst_get_composer (st : State) :
  gateways_started st -> gateways_started (_get_composer st).1.
Proof.
  unfold _get_composer. destruct (composer_instance st); [tauto|].
  intros _. apply (gst_empty _ (mkComposer [] (loglevel_dict_get "DEBUG"))); reflexivity.
Qed.

Lemma gst_get_or_create (st : State) (args : list string) (kwargs : list (string * string)) :
  gateways_started st -> gateways_started (get_or_create args kwargs st).1.
Proof.
  intros H. pose proof (gst_get_composer st H) as H1.
  pose proof (_get_composer_registered st) as Hreg.
  unfold get_or_create.
  destruct (_get_composer st) as [st1 c]. cbn [fst snd] in H1, Hreg.
  destruct (dict_get _ (loggers c)) as [[[l0 p0] g0]|] eqn:Hd; [exact H1|].
  set (p := ("./logs/" ++ kw_get kwargs "file" "log.txt")%string).
  assert (Hch : exists st2 gid g,
    match get_gateway_if_exists (loggers c) p with
    | Some g => (st1, g)
    | None => (set_heap_gateways st1 (heap_gateways st1 ++ [init_gateway p (now st1)]),
               length (heap_gateways st1))
    end = (st2, gid)
    /\ gateways_started st2 /\ composer_instance st2 = Some c
    /\ heap_gateways st2 !! gid = Some g).
  { destruct (get_gateway_if_exists (loggers c) p) as [gid|] eqn:Hgw.
    - destruct (get_gateway_if_exists_Some _ _ _ Hgw) as (n & l & Hin).
      destruct (H1 c Hreg _ _ _ _ Hin) as (g & Hg & _).
      exists st1, gid, g. split; [reflexivity|]. split; [exact H1|]. split; [exact Hreg|exact Hg].
    - eexists _, _, _. split; [reflexivity|]. split; [|split; [exact Hreg|]].
      + apply (gst_transfer st1); [exact H1|reflexivity|].
        intros i g Hi. cbn [heap_gateways set_heap_gateways]. apply lookup_app_l_Some. exact Hi.
      + cbn [heap_gateways set_heap_gateways]. apply list_lookup_middle. reflexivity. }
  destruct Hch as (st2 & gid & g & -> & H2 & Hc2 & Hg).
  destruct (bind_init args kwargs) as [[nm file]|]; [|exact H2].
  cbv zeta.
  destruct (gst_register st2 c _ p gid (set_file_gateway (init_logger nm file) (Some gid)) g
              H2 Hc2 Hd Hg) as (st4 & Hadd & H4).
  rewrite Hadd. exact H4.
Qed.

Lemma gst_exec_op (o : Op) (st : State) :
  gateways_started st -> gateways_started (exec_op o st).
Proof.
  intros H. destruct o as [args kwargs|lid lv|lid lv m|nm| |s| |t]; cbn [exec_op].
  - apply gst_get_or_create. exact H.
  - apply (gst_heap_update st lid (fun lo => set_level lo lv)). exact H.
  - apply (gst_heap_update st lid (fun lo => log lo lv m)). exact H.
  - unfold remove_logger. destruct (composer_instance st) as [c|] eqn:Hc; [|exact H].
    destruct (dict_get nm (loggers c)) as [x|]; [|exact H]. cbn [default].
    intros c' Hc'. injection Hc' as <-. cbn [loggers heap_gateways put_composer].
    intros n lid p gid Hin. apply dict_del_elem in Hin as [Hin _].
    exact (H c Hc _ _ _ _ Hin).
  - unfold _stop_all_sig. destruct (_get_composer st) as [st1 c].
    apply (gst_empty _ (mkComposer [] (c_level c))); reflexivity.
  - unfold set_instance. destruct (composer_instance st); [exact H|].
    apply (gst_empty _ (mkComposer [] (loglevel_dict_get s))); reflexivity.
  - unfold set_level_if_not_set. destruct (composer_instance st) as [c|]; [|exact H].
    generalize st H. clear st H.
    induction (loggers c) as [|[n [[lid p] gid]] es IH]; intros st H; [exact H|].
    cbn [fold_left]. apply IH. apply (gst_heap_update st lid (fun lo => set_level lo (c_level c))).
    exact H.
  - apply (gst_transfer st); [exact H|reflexivity|tauto].
Qed.

Lemma gst_exec_ops (os : list Op) (st : State) :
  gateways_started st -> gateways_started (exec_ops os st).
Proof.
  unfold exec_ops. revert st. induction os as [|o os IH]; intros st H; [exact H|].
  cbn [fold_left]. apply IH. apply gst_exec_op. exact H.
Qed.

Lemma gst_init : gateways_started init_state.
Proof. intros c Hc. discriminate. Qed.

(** *** Assigned levels *)

Lemma la_same (st st' : State) :
  levels_assigned st -> composer_instance st' = composer_instance st ->
  heap_loggers st' = heap_loggers st -> levels_assigned st'.
Proof. intros H Hc Hh c Hc'. rewrite Hh. rewrite Hc in Hc'. exact (H c Hc'). Qed.

Lemma la_empty (st : State) (c : Composer) :
  composer_instance st = Some c -> loggers c = [] -> levels_assigned st.
Proof.
  intros Hc Hl c' Hc'. rewrite Hc in Hc'. injection Hc' as <-. rewrite Hl.
  intros n lid p gid Hin. inversion Hin.
Qed.

Lemma la_heap_update (st : State) (lid : nat) (f : Logger -> Logger) :
  (forall lo (X : Prop), (level lo = NOTSET -> X) -> level (f lo) = NOTSET -> X) ->
  levels_assigned st -> levels_assigned (heap_update st lid f).
Proof.
  intros Hf H. unfold heap_update. destruct (heap_loggers st !! lid) as [lo|] eqn:E; [|exact H].
  intros c Hc n l p g Hin. cbn [composer_instance set_heap_loggers] in Hc.
  destruct (H c Hc _ _ _ _ Hin) as (lo0 & Hl0 & Hq). cbn [heap_loggers set_heap_loggers].
  destruct (decide (l = lid)) as [->|Hne].
  - rewrite E in Hl0. injection Hl0 as <-. exists (f lo). split.
    + apply list_lookup_insert_eq. exact (lookup_lt_Some _ _ _ E).
    + apply Hf. exact Hq.
  - exists lo0. rewrite list_lookup_insert_ne by congruence. split; [exact Hl0|exact Hq].
Qed.

Lemma set_level_level (lv : LogLevel) (lo : Logger) (X : Prop) :
  (level lo = NOTSET -> X) -> level (set_level lo lv) = NOTSET -> X.
Proof.
  intros Hq. unfold set_level. destruct (decide (level lo <> NOTSET)) as [_|Hn]; [exact Hq|].
  intros _. apply Hq. destruct (decide (level lo = NOTSET)); [assumption|contradiction].
Qed.

Lemma log_level (lv : LogLevel) (m : string) (lo : Logger) (X : Prop) :
  (level lo = NOTSET -> X) -> level (log lo lv m) = NOTSET -> X.
Proof. rewrite (proj2 (log_keeps_fields lo lv m)). tauto. Qed.

Lemma la_get_composer (st : State) :
  levels_assigned st -> levels_assigned (_get_composer st).1.
Proof.
  unfold _get_composer. destruct (composer_instance st); [tauto|].
  intros _. apply (la_empty _ (mkComposer [] (loglevel_dict_get "DEBUG"))); reflexivity.
Qed.

Lemma la_register (st2 : State) (c : Composer) (nm p : string) (gid : nat) (lo : Logger) :
  levels_assigned st2 -> composer_instance st2 = Some c ->
  dict_get nm (loggers c) = None ->
  exists st4, add_logger (set_heap_loggers st2 (heap_loggers st2 ++ [lo])) c nm
                (length (heap_loggers st2)) p gid = Some st4
              /\ levels_assigned st4.
Proof.
  intros H Hc Hd. unfold add_logger. rewrite Hd.
  eexists; split; [reflexivity|]. cbn [heap_loggers set_heap_loggers].
  rewrite list_lookup_middle by reflexivity.
  intros c' Hc'. injection Hc' as <-. cbn [loggers c_level heap_loggers].
  intros n l p' g' Hin. apply elem_of_app in Hin as [Hin|Hin].
  - destruct (H c Hc _ _ _ _ Hin) as (lo0 & Hl0 & Hq).
    pose proof (lookup_lt_Some _ _ _ Hl0). exists lo0. split; [|exact Hq].
    rewrite list_lookup_insert_ne by lia. apply lookup_app_l_Some. exact Hl0.
  - apply list_elem_of_singleton in Hin. injection Hin as _ -> _ _.
    eexists; split; [apply list_lookup_insert_eq; rewrite length_app; simpl; lia|].
    unfold set_level_field. cbn [level]. tauto.
Qed.

Lemma la_get_or_create (st : State) (args : list string) (kwargs : list (string * string)) :
  levels_assigned st -> levels_assigned (get_or_create args kwargs st).1.
Proof.
  intros H. pose proof (la_get_composer st H) as H1.
  pose proof (_get_composer_registered st) as Hreg.
  unfold get_or_create.
  destruct (_get_composer st) as [st1 c]. cbn [fst snd] in H1, Hreg.
  destruct (dict_get _ (loggers c)) as [[[l0 p0] g0]|] eqn:Hd; [exact H1|].
  set (p := ("./logs/" ++ kw_get kwargs "file" "log.txt")%string).
  assert (Hch : exists st2 gid,
    match get_gateway_if_exists (loggers c) p with
    | Some g => (st1, g)
    | None => (set_heap_gateways st1 (heap_gateways st1 ++ [init_gateway p (now st1)]),
               length (heap_gateways st1))
    end = (st2, gid)
    /\ levels_assigned st2 /\ composer_instance st2 = Some c).
  { destruct (get_gateway_if_exists (loggers c) p) as [g|].
    - exists st1, g. split; [reflexivity|]. split; [exact H1|exact Hreg].
    - eexists _, _. split; [reflexivity|]. split; [|exact Hreg].
      apply (la_same st1); [exact H1|reflexivity|reflexivity]. }
  destruct Hch as (st2 & gid & -> & H2 & Hc2).
  destruct (bind_init args kwargs) as [[nm file]|]; [|exact H2].
  cbv zeta.
  destruct (la_register st2 c _ p gid (set_file_gateway (init_logger nm file) (Some gid))
              H2 Hc2 Hd) as (st4 & Hadd & H4).
  rewrite Hadd. exact H4.
Qed.

Lemma la_exec_op (o : Op) (st : State) :
  levels_assigned st -> levels_assigned (exec_op o st).
Proof.
  intros H. destruct o as [args kwargs|lid lv|lid lv m|nm| |s| |t]; cbn [exec_op].
  - apply la_get_or_create. exact H.
  - apply (la_heap_update st lid (fun lo => set_level lo lv)); [apply set_level_level|exact H].
  - apply (la_heap_update st lid (fun lo => log lo lv m)); [apply log_level|exact H].
  - unfold remove_logger. destruct (composer_instance st) as [c|] eqn:Hc; [|exact H].
    destruct (dict_get nm (loggers c)) as [x|]; [|exact H]. cbn [default].
    intros c' Hc'. injection Hc' as <-. cbn [loggers c_level heap_loggers put_composer].
    intros n lid p gid Hin. apply dict_del_elem in Hin as [Hin _].
    exact (H c Hc _ _ _ _ Hin).
  - unfold _stop_all_sig. destruct (_get_composer st) as [st1 c].
    apply (la_empty _ (mkComposer [] (c_level c))); reflexivity.
  - unfold set_instance. destruct (composer_instance st); [exact H|].
    apply (la_empty _ (mkComposer [] (loglevel_dict_get s))); reflexivity.
  - unfold set_level_if_not_set. destruct (composer_instance st) as [c|]; [|exact H].
    generalize st H. clear st H.
    induction (loggers c) as [|[n [[lid p] gid]] es IH]; intros st H; [exact H|].
    cbn [fold_left]. apply IH.
    apply (la_heap_update st lid (fun lo => set_level lo (c_level c))); [apply set_level_level|exact H].
  - apply (la_same st); [exact H|reflexivity|reflexivity].
Qed.

Lemma la_exec_ops (os : list Op) (st : State) :
  levels_assigned st -> levels_assigned (exec_ops os st).
Proof.
  unfold exec_ops. revert st. induction os as [|o os IH]; intros st H; [exact H|].
  cbn [fold_left]. apply IH. apply la_exec_op. exact H.
Qed.

Lemma la_init : levels_assigned init_state.
Proof. intros c Hc. discriminate. Qed.

(** [logger.set_level(c.level)] on a registered logger changes nothing. *)
Lemma heap_set_level_assigned (st : State) (c : Composer) (lid : nat) (lo : Logger) :
  heap_loggers st !! lid = Some lo -> (level lo = NOTSET -> c_level c = NOTSET) ->
  heap_set_level st lid (c_level c) = st.
Proof.
  intros E Hq. unfold heap_set_level. rewrite E.
  assert (Hs : set_level lo (c_level c) = lo).
  { unfold set_level. destruct (decide (level lo <> NOTSET)) as [_|Hn]; [reflexivity|].
    assert (Hl : level lo = NOTSET) by (destruct (decide (level lo = NOTSET)); [assumption|contradiction]).
    rewrite (Hq Hl). unfold set_level_field. rewrite <- Hl. destruct lo; reflexivity. }
  rewrite Hs, list_insert_id by exact E. destruct st; reflexivity.
Qed.
End RegistryExtra.

Module RegistryBehaviour.
Import LoggerRt Gateway Registry Invariants RegistryFacts RegistryInvariants RegistryQuery
  RegistryExtra.

Lemma dict_get_elem {V} (k : string) (v : V) (d : list (string * V)) :
  dict_get k d = Some v -> (k, v) ∈ d.
Proof.
  induction d as [|[k' v'] d IH]; cbn [dict_get]; [discriminate|].
  destruct (String.eqb_spec k k') as [->|_].
  - intros [= ->]. left.
  - intros H. right. exact (IH H).
Qed.

Lemma get_or_create_has_composer (args : list string) (kwargs : list (string * string))
  (st : State) :
  exists c, composer_instance (get_or_create args kwargs st).1 = Some c.
Proof.
  unfold get_or_create. pose proof (_get_composer_registered st) as Hreg.
  destruct (_get_composer st) as [st1 c1]. cbn [fst snd] in Hreg.
  destruct (dict_get _ (loggers c1)) as [[[l0 p0] g0]|]; [eauto|].
  destruct (get_gateway_if_exists _ _);
    (destruct (bind_init args kwargs) as [[nm file]|]; [|cbn; eauto]);
    cbv zeta; unfold add_logger; destruct (dict_get _ _); cbn; eauto.
Qed.

Lemma log_below_notset_queue (lo : Logger) (lv : LogLevel) (m : string) :
  level lo = NOTSET -> lv <> SIGSTOP -> lv <> NOTSET ->
  message_queue (log lo lv m) = message_queue lo.
Proof.
  intros Hl Hs Hn. unfold log. cbv zeta. rewrite Hl.
  destruct (decide (NOTSET = QUIET)) as [e|_]; [discriminate|].
  destruct (decide (lv = SIGSTOP)) as [e|_]; [contradiction|].
  replace (Z.geb (value lv) (value NOTSET)) with false by (destruct lv; try contradiction; reflexivity).
  destruct (queue_processing_task lo); [reflexivity|].
  unfold _create. destruct (_ || _); reflexivity.
Qed.

(** X11: [remove_logger(name)] succeeds only on a registered name; afterwards
    the name is no longer in the composer ([name in composer] is false and
    [get_logger(name)] raises), every other name looks up what it did
    before, and the logger and gateway objects themselves are untouched
    (nothing is stopped). *)
Theorem remove_logger_forgets (st st' : State) (nm : string) :
  remove_logger st nm = Some st' ->
  exists c c', composer_instance st = Some c /\ composer_instance st' = Some c'
    /\ composer_contains c nm = true /\ composer_contains c' nm = false
    /\ get_logger c' nm = None
    /\ (forall nm', nm' <> nm -> get_logger c' nm' = get_logger c nm')
    /\ heap_loggers st' = heap_loggers st /\ heap_gateways st' = heap_gateways st.
Proof.
  unfold remove_logger. destruct (composer_instance st) as [c|] eqn:Hc; [|discriminate].
  destruct (dict_get nm (loggers c)) as [x|] eqn:Hd; [|discriminate].
  intros [= <-]. eexists c, _. split; [reflexivity|]. split; [reflexivity|].
  unfold composer_contains, get_logger. cbn [loggers].
  rewrite Hd, dict_get_del_same.
  split; [apply bool_decide_true; eexists; reflexivity|].
  split; [apply bool_decide_false; intros [? H]; discriminate|].
  split; [reflexivity|]. split; [|split; reflexivity].
  intros nm' Hne. rewrite dict_get_del_other by exact Hne. reflexivity.
Qed.

Lemma remove_logger_forgets_witness :
  remove_logger (exec_ops [OGetOrCreate [] [("name", "A")]; OGetOrCreate [] [("name", "B")]] init_state) "A"
    = Some (default init_state
              (remove_logger (exec_ops [OGetOrCreate [] [("name", "A")];
                                        OGetOrCreate [] [("name", "B")]] init_state) "A"))
  /\ exists c c',
    composer_instance (exec_ops [OGetOrCreate [] [("name", "A")]; OGetOrCreate [] [("name", "B")]] init_state) = Some c
    /\ composer_instance (default init_state
              (remove_logger (exec_ops [OGetOrCreate [] [("name", "A")];
                                        OGetOrCreate [] [("name", "B")]] init_state) "A")) = Some c'
    /\ composer_contains c "A" = true /\ composer_contains c' "A" = false
    /\ get_logger c' "A" = None
    /\ (forall nm', nm' <> "A" -> get_logger c' nm' = get_logger c nm')
    /\ heap_loggers (default init_state
              (remove_logger (exec_ops [OGetOrCreate [] [("name", "A")];
                                        OGetOrCreate [] [("name", "B")]] init_state) "A"))
       = heap_loggers (exec_ops [OGetOrCreate [] [("name", "A")]; OGetOrCreate [] [("name", "B")]] init_state)
    /\ heap_gateways (default init_state
              (remove_logger (exec_ops [OGetOrCreate [] [("name", "A")];
                                        OGetOrCreate [] [("name", "B")]] init_state) "A"))
       = heap_gateways (exec_ops [OGetOrCreate [] [("name", "A")]; OGetOrCreate [] [("name", "B")]] init_state).
Proof.
  assert (H : remove_logger (exec_ops [OGetOrCreate [] [("name", "A")]; OGetOrCreate [] [("name", "B")]] init_state) "A"
    = Some (default init_state
              (remove_logger (exec_ops [OGetOrCreate [] [("name", "A")];
                                        OGetOrCreate [] [("name", "B")]] init_state) "A")))
    by (vm_compute; reflexivity).
  split; [exact H|]. exact (remove_logger_forgets _ _ _ H).
Defined.

(** X12: removing a logger leaks its gateway: when the removed name was the
    only entry writing to its path, constructing a logger with that name
    and path again creates a new [Logger] object (not the removed one) and
    a new [FileGateway] for the same path, next to the old one. *)
Theorem recreate_after_remove (os : list Op) (nm : string) (args : list string)
  (kwargs : list (string * string)) (c : Composer) (old gid : nat) (st1 st2 : State) (lid : nat) :
  composer_instance (exec_ops os init_state) = Some c ->
  kw_get kwargs "name" "default" = nm ->
  dict_get nm (loggers c) = Some (old, ("./logs/" ++ kw_get kwargs "file" "log.txt")%string, gid) ->
  (forall n l g, (n, (l, ("./logs/" ++ kw_get kwargs "file" "log.txt")%string, g)) ∈ loggers c -> n = nm) ->
  remove_logger (exec_ops os init_state) nm = Some st1 ->
  get_or_create args kwargs st1 = (st2, Some lid) ->
  lid = length (heap_loggers (exec_ops os init_state)) /\ lid <> old
  /\ length (heap_gateways st2) = S (length (heap_gateways (exec_ops os init_state)))
  /\ gid < length (heap_gateways (exec_ops os init_state))
  /\ exists lo, heap_loggers st2 !! lid = Some lo
       /\ file_gateway lo = Some (length (heap_gateways (exec_ops os init_state))).
Proof.
  pose proof (gs_exec_ops os init_state gs_init) as Hgs.
  intros Hc Hname Hd Honly Hrm Hgc.
  destruct (Hgs c Hc) as [H1 _].
  destruct (H1 _ _ _ _ (dict_get_elem _ _ _ Hd)) as [Hlt (lo0 & Hlo0 & _)].
  pose proof (lookup_lt_Some _ _ _ Hlo0) as Hold.
  unfold remove_logger in Hrm. rewrite Hc, Hd in Hrm. injection Hrm as <-.
  apply (get_or_create_fresh_path _ (mkComposer (dict_del nm (loggers c)) (c_level c))) in Hgc.
  - destruct Hgc as (-> & Hlen & _ & lo & Hlo & Hf & _).
    cbn [put_composer heap_loggers heap_gateways] in *.
    split; [reflexivity|]. split; [lia|]. split; [exact Hlen|]. split; [exact Hlt|].
    exists lo. split; assumption.
  - reflexivity.
  - cbn [loggers]. rewrite Hname. apply dict_get_del_same.
  - cbn [loggers].
    destruct (get_gateway_if_exists (dict_del nm (loggers c)) _) as [g|] eqn:Hgw; [|reflexivity].
    destruct (get_gateway_if_exists_Some _ _ _ Hgw) as (n & l & Hin).
    apply dict_del_elem in Hin as [Hin Hne]. exfalso. exact (Hne (Honly _ _ _ Hin)).
Qed.

Lemma recreate_after_remove_witness :
  exec_ops [OGetOrCreate [] [("name", "A")]] init_state
    = mkState (Some (mkComposer [("A", (0, "./logs/log.txt", 0))] DEBUG)) true
        (heap_loggers (exec_ops [OGetOrCreate [] [("name", "A")]] init_state))
        (heap_gateways (exec_ops [OGetOrCreate [] [("name", "A")]] init_state)) 0
  /\ length (heap_gateways
       (get_or_create [] [("name", "A")]
          (default init_state (remove_logger (exec_ops [OGetOrCreate [] [("name", "A")]] init_state) "A"))).1)
     = 2.
Proof.
  assert (Hst : exec_ops [OGetOrCreate [] [("name", "A")]] init_state
    = mkState (Some (mkComposer [("A", (0, "./logs/log.txt", 0))] DEBUG)) true
        (heap_loggers (exec_ops [OGetOrCreate [] [("name", "A")]] init_state))
        (heap_gateways (exec_ops [OGetOrCreate [] [("name", "A")]] init_state)) 0)
    by (vm_compute; reflexivity).
  split; [exact Hst|].
  assert (Hc : composer_instance (exec_ops [OGetOrCreate [] [("name", "A")]] init_state)
               = Some (mkComposer [("A", (0, "./logs/log.txt", 0))] DEBUG))
    by (rewrite Hst; reflexivity).
  assert (Hd : dict_get "A" (loggers (mkComposer [("A", (0, "./logs/log.txt", 0))] DEBUG))
               = Some (0, ("./logs/" ++ kw_get [("name", "A")] "file" "log.txt")%string, 0))
    by reflexivity.
  assert (Honly : forall n l g,
            (n, (l, ("./logs/" ++ kw_get [("name", "A")] "file" "log.txt")%string, g))
              ∈ loggers (mkComposer [("A", (0, "./logs/log.txt", 0))] DEBUG) -> n = "A").
  { intros n l g Hin. cbn [loggers] in Hin. apply list_elem_of_singleton in Hin.
    injection Hin; intros; subst; reflexivity. }
  assert (Hrm : remove_logger (exec_ops [OGetOrCreate [] [("name", "A")]] init_state) "A"
    = Some (default init_state (remove_logger (exec_ops [OGetOrCreate [] [("name", "A")]] init_state) "A")))
    by (vm_compute; reflexivity).
  assert (Hgc : get_or_create [] [("name", "A")]
      (default init_state (remove_logger (exec_ops [OGetOrCreate [] [("name", "A")]] init_state) "A"))
    = ((get_or_create [] [("name", "A")]
      (default init_state (remove_logger (exec_ops [OGetOrCreate [] [("name", "A")]] init_state) "A"))).1,
       Some 1))
    by (vm_compute; reflexivity).
  destruct (recreate_after_remove [OGetOrCreate [] [("name", "A")]] "A" [] [("name", "A")]
              _ 0 0 _ _ 1 Hc eq_refl Hd Honly Hrm Hgc) as (_ & _ & Hlen & _).
  rewrite Hlen. vm_compute. reflexivity.
Defined.

(** X13: after [stop_logging()] ([_stop_all_sig]) the composer is empty, so
    the next construction that returns a logger creates a new [Logger]
    object and a new [FileGateway], even for a name and file used before;
    the earlier loggers stay on the heap unchanged. *)
Theorem construct_after_stop_all_is_fresh (st : State) (args : list string)
  (kwargs : list (string * string)) (st' : State) (lid : nat) :
  get_or_create args kwargs (_stop_all_sig st).1 = (st', Some lid) ->
  lid = length (heap_loggers st)
  /\ length (heap_gateways st') = S (length (heap_gateways st))
  /\ (forall i lo, heap_loggers st !! i = Some lo -> heap_loggers st' !! i = Some lo)
  /\ exists lo, heap_loggers st' !! lid = Some lo /\ file_gateway lo = Some (length (heap_gateways st)).
Proof.
  intros H.
  assert (Hst : (_stop_all_sig st).1
                = put_composer (_get_composer st).1 (mkComposer [] (c_level (_get_composer st).2)))
    by (unfold _stop_all_sig; destruct (_get_composer st); reflexivity).
  rewrite Hst in H.
  apply (get_or_create_fresh_path _ (mkComposer [] (c_level (_get_composer st).2))) in H;
    [|reflexivity|reflexivity|reflexivity].
  destruct (_get_composer_heaps st) as [Hl Hg].
  unfold put_composer in H. cbn [heap_loggers heap_gateways] in H. rewrite Hl, Hg in H.
  destruct H as (H1 & H2 & H3 & lo & H4 & H5 & _).
  split; [exact H1|]. split; [exact H2|]. split; [exact H3|]. exists lo. split; assumption.
Qed.

Lemma construct_after_stop_all_is_fresh_witness :
  get_or_create [] [("name", "A")] (_stop_all_sig (exec_ops [OGetOrCreate [] [("name", "A")]] init_state)).1
    = ((get_or_create [] [("name", "A")]
          (_stop_all_sig (exec_ops [OGetOrCreate [] [("name", "A")]] init_state)).1).1, Some 1)
  /\ length (heap_gateways (get_or_create [] [("name", "A")]
          (_stop_all_sig (exec_ops [OGetOrCreate [] [("name", "A")]] init_state)).1).1)
     = S (length (heap_gateways (exec_ops [OGetOrCreate [] [("name", "A")]] init_state))).
Proof.
  assert (H : get_or_create [] [("name", "A")] (_stop_all_sig (exec_ops [OGetOrCreate [] [("name", "A")]] init_state)).1
    = ((get_or_create [] [("name", "A")]
          (_stop_all_sig (exec_ops [OGetOrCreate [] [("name", "A")]] init_state)).1).1, Some 1))
    by (vm_compute; reflexivity).
  split; [exact H|]. exact (proj1 (proj2 (construct_after_stop_all_is_fresh _ _ _ _ _ H))).
Defined.

(** X14: once any [Logger(...)] construction has been attempted (even one
    that raised), a composer is registered for good, so every later
    [LoggerComposer.set_instance] raises [RuntimeError], whatever was done
    in between. *)
Theorem set_instance_refused_after_construction (args : list string)
  (kwargs : list (string * string)) (st : State) (os : list Op) (s : string) :
  set_instance (exec_ops os (get_or_create args kwargs st).1) s = None.
Proof.
  destruct (get_or_create_has_composer args kwargs st) as [c Hc].
  destruct (composer_kept_ops os _ c Hc) as [c' Hc'].
  unfold set_instance. rewrite Hc'. reflexivity.
Qed.

(** X15: at every reachable state, the gateway of every registered logger is
    on the heap and its writer task has been started ([add_logger] calls
    [gateway.start()]). *)
Theorem registered_gateways_started (os : list Op) (c : Composer) (n : string) (lid : nat)
  (p : string) (gid : nat) :
  composer_instance (exec_ops os init_state) = Some c ->
  (n, (lid, p, gid)) ∈ loggers c ->
  exists g, heap_gateways (exec_ops os init_state) !! gid = Some g /\ processing_task g = true.
Proof.
  intros Hc Hin. exact (gst_exec_ops os init_state gst_init c Hc _ _ _ _ Hin).
Qed.

Lemma registered_gateways_started_witness :
  composer_instance (exec_ops [OGetOrCreate [] [("name", "A")]] init_state)
    = Some (mkComposer [("A", (0, "./logs/log.txt", 0))] DEBUG)
  /\ exists g, heap_gateways (exec_ops [OGetOrCreate [] [("name", "A")]] init_state) !! 0 = Some g
               /\ processing_task g = true.
Proof.
  assert (Hc : composer_instance (exec_ops [OGetOrCreate [] [("name", "A")]] init_state)
                 = Some (mkComposer [("A", (0, "./logs/log.txt", 0))] DEBUG))
    by (vm_compute; reflexivity).
  split; [exact Hc|].
  apply (registered_gateways_started _ _ "A" 0 "./logs/log.txt" 0 Hc). left.
Defined.

(** X16: at every reachable state [LoggerComposer.set_level_if_not_set()]
    changes nothing: [add_logger] has already given every registered
    logger the composer's level, and a logger still at NOTSET can only be
    one under a NOTSET composer. *)
Theorem set_level_if_not_set_noop (os : list Op) :
  set_level_if_not_set (exec_ops os init_state) = exec_ops os init_state.
Proof.
  pose proof (la_exec_ops os init_state la_init) as Hla.
  unfold set_level_if_not_set.
  destruct (composer_instance (exec_ops os init_state)) as [c|] eqn:Hc; [|reflexivity].
  assert (Hall : forall es, (forall e, e ∈ es -> e ∈ loggers c) ->
    fold_left (fun st' (e : string * (nat * string * nat)) =>
                 let '(_, (lid, _, _)) := e in heap_set_level st' lid (c_level c))
              es (exec_ops os init_state) = exec_ops os init_state).
  { induction es as [|[n [[lid p] gid]] es IH]; intros Hsub; [reflexivity|].
    cbn [fold_left].
    destruct (Hla c Hc n lid p gid (Hsub _ ltac:(left))) as (lo & Hlo & Hq).
    rewrite (heap_set_level_assigned _ c lid lo Hlo Hq).
    apply IH. intros e He. apply Hsub. right. exact He. }
  apply Hall. tauto.
Qed.

Lemma composer_instance_heap_set_level (st : State) (lid : nat) (lv : LogLevel) :
  composer_instance (heap_set_level st lid lv) = composer_instance st.
Proof. unfold heap_set_level. destruct (_ !! _); reflexivity. Qed.

(** [exec_op] keeps a registered composer's level: only [set_instance]
    could bring another composer, and it raises while one is registered. *)
Lemma composer_level_kept (o : Op) (st : State) (c : Composer) :
  composer_instance st = Some c ->
  exists c', composer_instance (exec_op o st) = Some c' /\ c_level c' = c_level c.
Proof.
  intros Hc. destruct o as [args kwargs|lid lv|lid lv m|nm| |s| |t]; cbn [exec_op].
  - unfold get_or_create, _get_composer. rewrite Hc. cbn [fst snd].
    destruct (dict_get _ (loggers c)) as [[[l0 p0] g0]|]; [eauto|].
    destruct (get_gateway_if_exists _ _);
      (destruct (bind_init args kwargs) as [[nm file]|]; [|cbn; eauto]);
      cbv zeta; unfold add_logger; destruct (dict_get _ _); cbn; eauto.
  - rewrite composer_instance_heap_set_level. eauto.
  - unfold heap_log. destruct (_ !! _); cbn; eauto.
  - unfold remove_logger. rewrite Hc. destruct (dict_get _ _); cbn; eauto.
  - unfold _stop_all_sig, _get_composer. rewrite Hc. cbn. eauto.
  - unfold set_instance. rewrite Hc. cbn. eauto.
  - unfold set_level_if_not_set. rewrite Hc.
    generalize st Hc. clear st Hc.
    induction (loggers c) as [|[n [[lid p] gid]] es IH]; intros st Hc; [eauto|].
    cbn [fold_left]. apply IH. rewrite composer_instance_heap_set_level. exact Hc.
  - cbn. eauto.
Qed.

Lemma composer_level_kept_ops (os : list Op) (st : State) (c : Composer) :
  composer_instance st = Some c ->
  exists c', composer_instance (exec_ops os st) = Some c' /\ c_level c' = c_level c.
Proof.
  unfold exec_ops. revert st c. induction os as [|o os IH]; intros st c Hc; [eauto|].
  cbn [fold_left]. destruct (composer_level_kept o st c Hc) as (c' & Hc' & Hl).
  destruct (IH _ _ Hc') as (c'' & Hc'' & Hl'). exists c''. split; [exact Hc''|congruence].
Qed.

(** A get-or-create of a name the registered composer does not hold, on a
    new or an already used path, gives the new logger the composer's level. *)
Lemma get_or_create_new_level (st : State) (c : Composer) (args : list string)
  (kwargs : list (string * string)) (st' : State) (lid : nat) :
  composer_instance st = Some c ->
  dict_get (kw_get kwargs "name" "default") (loggers c) = None ->
  get_or_create args kwargs st = (st', Some lid) ->
  exists lo, heap_loggers st' !! lid = Some lo /\ level lo = c_level c.
Proof.
  intros Hc Hd. unfold get_or_create, _get_composer. rewrite Hc. cbn [fst snd]. rewrite Hd.
  destruct (get_gateway_if_exists _ _) as [g|];
    (destruct (bind_init args kwargs) as [[nm file]|]; [|discriminate]); cbv zeta;
    unfold add_logger; rewrite Hd;
    cbn [heap_loggers heap_gateways set_heap_loggers set_heap_gateways];
    rewrite list_lookup_middle by reflexivity; intros [= <- <-]; cbn [heap_loggers];
    (eexists; split; [apply list_lookup_insert_eq; rewrite length_app; simpl; lia|]);
    reflexivity.
Qed.

Lemma composer_contains_false (c : Composer) (nm : string) :
  composer_contains c nm = false -> dict_get nm (loggers c) = None.
Proof.
  unfold composer_contains. case_bool_decide as H; [discriminate|].
  intros _. apply eq_None_not_Some. exact H.
Qed.

(** X10: a composer set with [set_instance] from a level name the table does
    not know has level NOTSET, and keeps it through any later operations;
    every logger that construction registers afterwards (a name the
    composer does not hold at that point) gets level NOTSET, and its [log]
    drops every message at a real severity (DEBUG to QUIET): its queue is
    left as it was. *)
Theorem unknown_level_composer_mutes (st st' : State) (s : string) (os : list Op)
  (args : list string) (kwargs : list (string * string)) (st'' : State) (lid : nat) :
  loglevel_dict_get s = NOTSET ->
  set_instance st s = Some st' ->
  (forall c, composer_instance (exec_ops os st') = Some c ->
             composer_contains c (kw_get kwargs "name" "default") = false) ->
  get_or_create args kwargs (exec_ops os st') = (st'', Some lid) ->
  (exists c, composer_instance (exec_ops os st') = Some c /\ c_level c = NOTSET)
  /\ exists lo, heap_loggers st'' !! lid = Some lo /\ level lo = NOTSET
    /\ forall lv m, lv <> SIGSTOP -> lv <> NOTSET -> message_queue (log lo lv m) = message_queue lo.
Proof.
  intros Hs Hset Hnew Hgc. unfold set_instance in Hset.
  destruct (composer_instance st); [discriminate|]. injection Hset as <-. rewrite Hs in *.
  destruct (composer_level_kept_ops os (put_composer st (mkComposer [] NOTSET))
              (mkComposer [] NOTSET) eq_refl) as (c & Hc & Hl).
  cbn [c_level] in Hl.
  split; [eauto|].
  destruct (get_or_create_new_level _ c _ _ _ _ Hc (composer_contains_false _ _ (Hnew c Hc)) Hgc)
    as (lo & Hlo & Hlv).
  rewrite Hl in Hlv.
  exists lo. split; [exact Hlo|]. split; [exact Hlv|].
  intros lv m. apply log_below_notset_queue. exact Hlv.
Qed.

Definition x10_ops : list Op :=
  [OGetOrCreate [] [("name", "a")]; OLog 0 INFO "x"; OStopAll; OTick 5].

Lemma unknown_level_composer_mutes_witness :
  (loglevel_dict_get "verbose" = NOTSET
   /\ (forall c, composer_instance
                   (exec_ops x10_ops (default init_state (set_instance init_state "verbose"))) = Some c
                 -> composer_contains c "b" = false))
  /\ (exists c, composer_instance
                  (exec_ops x10_ops (default init_state (set_instance init_state "verbose"))) = Some c
                /\ c_level c = NOTSET)
  /\ exists lo, heap_loggers (get_or_create [] [("name", "b")]
                   (exec_ops x10_ops (default init_state (set_instance init_state "verbose")))).1
                   !! 1 = Some lo
       /\ level lo = NOTSET
       /\ forall lv m, lv <> SIGSTOP -> lv <> NOTSET -> message_queue (log lo lv m) = message_queue lo.
Proof.
  assert (Hs : loglevel_dict_get "verbose" = NOTSET) by reflexivity.
  assert (Hset : set_instance init_state "verbose"
                 = Some (default init_state (set_instance init_state "verbose"))) by reflexivity.
  assert (Hnew : forall c, composer_instance
                   (exec_ops x10_ops (default init_state (set_instance init_state "verbose"))) = Some c
                 -> composer_contains c (kw_get [("name", "b")] "name" "default") = false).
  { intros c Hc. vm_compute in Hc. injection Hc as <-. vm_compute. reflexivity. }
  assert (Hgc : get_or_create [] [("name", "b")]
      (exec_ops x10_ops (default init_state (set_instance init_state "verbose")))
    = ((get_or_create [] [("name", "b")]
         (exec_ops x10_ops (default init_state (set_instance init_state "verbose")))).1, Some 1))
    by (vm_compute; reflexivity).
  split; [split; [exact Hs|exact Hnew]|].
  exact (unknown_level_composer_mutes _ _ _ _ _ _ _ _ Hs Hset Hnew Hgc).
Defined.
End RegistryBehaviour.

(* ------------------------------------------------------------------ *)
(** ** Level tables and the logger's consumer task *)

Module LoggerExtra.
Import LoggerRt Scenarios.

Lemma log_when_stopped (lo : Logger) (lv : LogLevel) (m : string) :
  logging lo = false -> queue_processing_task lo = None ->
  logging (log lo lv m) = false /\ queue_processing_task (log lo lv m) = None
  /\ q_items (message_queue lo) `prefix_of` q_items (message_queue (log lo lv m)).
Proof.
  destruct lo as [nm lvl q task lg gw fl]. cbn [logging queue_processing_task].
  intros -> ->. unfold log. cbv zeta. cbn [level].
  destruct (decide (lvl = QUIET)); [split; [reflexivity|split; reflexivity]|].
  destruct (decide (lv = SIGSTOP)).
  - split; [reflexivity|]. split; [reflexivity|]. exists [None]. reflexivity.
  - destruct (Z.geb _ _); cbn; (split; [reflexivity|split; [reflexivity|]]).
    + exists [Some (lv, m)]. reflexivity.
    + reflexivity.
Qed.

(** X1: the level tables agree: the label [_apply_decorations] prints for a
    level ([reversed_loglevel_dict.get(level.value, "UNKNOWN")]) is the
    name [loglevel_dict] maps back to that level, for every level but
    SIGSTOP, which is printed as "UNKNOWN"; and no level name gives
    SIGSTOP (unknown names give NOTSET). *)
Theorem level_names_round_trip :
  (forall lv, lv <> SIGSTOP ->
     loglevel_dict_get (reversed_loglevel_dict_get (value lv) "UNKNOWN") = lv)
  /\ reversed_loglevel_dict_get (value SIGSTOP) "UNKNOWN" = "UNKNOWN"
  /\ (forall s, loglevel_dict_get s <> SIGSTOP).
Proof.
  split; [|split; [reflexivity|]].
  - intros lv H. destruct lv; [contradiction|reflexivity..].
  - intros s. unfold loglevel_dict_get.
    repeat match goal with |- context [if ?b then _ else _] => destruct b end; discriminate.
Qed.

(** X17: on a logger without a consumer task that has not been stopped and
    is not QUIET, any [log] call starts the consumer task, even for a
    message below the threshold; a SIGSTOP call does not: it queues the
    [None] sentinel and leaves no task to read it. *)
Theorem log_starts_consumer (l : Logger) (lv : LogLevel) (m : string) :
  queue_processing_task l = None -> logging l = true -> level l <> QUIET ->
  queue_processing_task (log l lv m) = (if decide (lv = SIGSTOP) then None else Some CLoop)
  /\ logging (log l lv m) = true.
Proof.
  destruct l as [nm lvl q task lg gw fl]. cbn [logging queue_processing_task level].
  intros -> -> Hq. unfold log. cbv zeta. cbn [level].
  destruct (decide (lvl = QUIET)); [contradiction|].
  destruct (decide (lv = SIGSTOP)); [split; reflexivity|].
  destruct (Z.geb _ _); split; reflexivity.
Qed.

Lemma log_starts_consumer_witness :
  (queue_processing_task (init_logger "db" "log.txt") = None
   /\ logging (init_logger "db" "log.txt") = true
   /\ level (init_logger "db" "log.txt") <> QUIET)
  /\ queue_processing_task (log (init_logger "db" "log.txt") SIGSTOP "") = None.
Proof.
  assert (H1 : queue_processing_task (init_logger "db" "log.txt") = None) by reflexivity.
  assert (H2 : logging (init_logger "db" "log.txt") = true) by reflexivity.
  assert (H3 : level (init_logger "db" "log.txt") <> QUIET) by discriminate.
  split; [split; [exact H1|split; [exact H2|exact H3]]|].
  exact (proj1 (log_starts_consumer _ SIGSTOP "" H1 H2 H3)).
Defined.

(** X18: once [stop()] has returned, the logger never gets a consumer task
    again: later [log] calls still queue the messages they accept (the
    queue only grows), but [_logging] stays false, [_queue_processing_task]
    stays [None], and no consumer step can run. *)
Theorem logger_inert_after_stop (l l1 : Logger) (ps : list (LogLevel * string)) :
  stop_finish (stop_begin l) = Some l1 ->
  q_unfinished (message_queue l1) = 0
  /\ logging (fold_left (fun lo p => log lo p.1 p.2) ps l1) = false
  /\ queue_processing_task (fold_left (fun lo p => log lo p.1 p.2) ps l1) = None
  /\ q_items (message_queue l1)
       `prefix_of` q_items (message_queue (fold_left (fun lo p => log lo p.1 p.2) ps l1))
  /\ forall w, w_logger w = fold_left (fun lo p => log lo p.1 p.2) ps l1 -> consumer_step w = None.
Proof.
  unfold stop_finish, stop_begin.
  destruct (q_unfinished (message_queue (set_logging l false))) as [|u] eqn:Hu; [|discriminate].
  intros [= <-]. split; [exact Hu|].
  assert (Hinv : forall qs lo, logging lo = false -> queue_processing_task lo = None ->
    logging (fold_left (fun lo p => log lo p.1 p.2) qs lo) = false
    /\ queue_processing_task (fold_left (fun lo p => log lo p.1 p.2) qs lo) = None
    /\ q_items (message_queue lo)
         `prefix_of` q_items (message_queue (fold_left (fun lo p => log lo p.1 p.2) qs lo))).
  { induction qs as [|[lv m] qs IH]; intros lo Hl Ht; [split; [exact Hl|split; [exact Ht|reflexivity]]|].
    cbn [fold_left fst snd].
    destruct (log_when_stopped lo lv m Hl Ht) as (Hl' & Ht' & Hp).
    destruct (IH _ Hl' Ht') as (Hl2 & Ht2 & Hp2).
    split; [exact Hl2|]. split; [exact Ht2|]. etransitivity; [exact Hp|exact Hp2]. }
  destruct (Hinv ps (set_task (set_logging l false) None) eq_refl eq_refl) as (Hl & Ht & Hp).
  split; [exact Hl|]. split; [exact Ht|]. split; [exact Hp|].
  intros w Hw. unfold consumer_step. rewrite Hw, Ht. reflexivity.
Qed.

Lemma logger_inert_after_stop_witness :
  stop_finish (stop_begin registered_logger) = Some (set_task (set_logging registered_logger false) None)
  /\ queue_processing_task
       (fold_left (fun lo p => log lo p.1 p.2) [(INFO, "late"); (ERROR, "later")]
          (set_task (set_logging registered_logger false) None)) = None.
Proof.
  assert (H : stop_finish (stop_begin registered_logger)
              = Some (set_task (set_logging registered_logger false) None)) by reflexivity.
  split; [exact H|].
  exact (proj1 (proj2 (proj2 (logger_inert_after_stop _ _ [(INFO, "late"); (ERROR, "later")] H)))).
Defined.
End LoggerExtra.
